(** * Vesting reset scripts: locked-amount calculation and batch splitting

    A shallow embedding of the two pieces of logic of
    [scripts/future_reset_vesting_plans.py] and
    [scripts/reset_vesting_plans.py] that carry an arithmetic contract:

    - [calculate_future_locked_amount], the linear vesting formula;
    - [batch_list] and the batching loop of [update_vesting_plans].

    Python integers are unbounded, so they are [Z]; Python's [//] is floor
    division, which is [Z.div].  Exceptions are values of [result]; the
    [logging] calls of the source are kept as writes to an explicit log. *)

From Stdlib Require Import ZArith List Lia Bool.
Import ListNotations.

Open Scope Z_scope.

(** ** The fragment of the Python runtime the scripts rely on *)

Module Py.

(** Built-in exceptions that the modelled operations can raise. *)
Inductive exn : Type :=
| ZeroDivisionError
| ValueError.

Inductive result (A : Type) : Type :=
| Ok (a : A)
| Raise (e : exn).
Arguments Ok {A} a.
Arguments Raise {A} e.

Definition raises {A : Type} (r : result A) : Prop :=
  exists e, r = Raise e.

Definition bind {A B : Type} (r : result A) (k : A -> result B) : result B :=
  match r with
  | Ok a => k a
  | Raise e => Raise e
  end.

(** [a // b] on [int]. *)
Definition floordiv (a b : Z) : result Z :=
  if b =? 0 then Raise ZeroDivisionError else Ok (a / b).

(** [len(l)] as a Python integer. *)
Definition len {A : Type} (l : list A) : Z := Z.of_nat (length l).

(** Number of elements of [range(lo, hi, step)] for a non-zero [step]
    (CPython's [compute_range_length]). *)
Definition range_length (lo hi step : Z) : Z :=
  if (0 <? step) && (lo <? hi) then 1 + (hi - 1 - lo) / step
  else if (step <? 0) && (hi <? lo) then 1 + (lo - 1 - hi) / (- step)
  else 0.

(** [list(range(lo, hi, step))]; a zero step is a [ValueError]. *)
Definition range (lo hi step : Z) : result (list Z) :=
  if step =? 0 then Raise ValueError
  else Ok (map (fun k => lo + Z.of_nat k * step)
               (seq 0 (Z.to_nat (range_length lo hi step)))).

(** Normalisation of one slice bound against a length (step 1):
    negative bounds count from the end, then everything is clamped
    to [0 .. n]. *)
Definition clamp_index (i n : Z) : Z :=
  if i <? 0 then Z.max (i + n) 0 else Z.min i n.

(** [l[lo:hi]]. *)
Definition slice {A : Type} (l : list A) (lo hi : Z) : list A :=
  let lo' := clamp_index lo (len l) in
  let hi' := clamp_index hi (len l) in
  firstn (Z.to_nat (hi' - lo')) (skipn (Z.to_nat lo') l).

End Py.

Import Py.

(** ** Logging

    [future_reset_vesting_plans.py] configures the root logger once, at
    import time, with [level=logging.INFO] and a file and a stdout handler.
    What the handlers have received is the [emitted] list. *)

Module Logging.

Definition DEBUG : Z := 10.
Definition INFO : Z := 20.

(** The messages [calculate_future_locked_amount] formats, with the
    values interpolated in each. *)
Inductive message : Type :=
| MsgCalculating (amount claimed start_time end_time : Z)
| MsgZeroAmount
| MsgFullyUnlocked (unlocked : Z)
| MsgNothingUnlocked (unlocked : Z)
| MsgPartialUnlock (duration elapsed unlocked : Z)
| MsgFinalLocked (locked : Z).

Record world : Type := mkWorld {
  level : Z;                       (* effective level of the logger *)
  emitted : list (Z * message)     (* records passed to the handlers *)
}.

(** State after [logging.basicConfig(level=logging.INFO, ...)]. *)
Definition configured : world := mkWorld INFO [].

(** [Logger.log]: a record reaches the handlers when its level is
    enabled. *)
Definition log (lvl : Z) (msg : message) (w : world) : world :=
  if level w <=? lvl then mkWorld (level w) (emitted w ++ [(lvl, msg)])
  else w.

End Logging.

Import Logging.

(** ** Computations that log and may raise *)

Definition M (A : Type) : Type := world -> result A * world.

Definition ret {A : Type} (a : A) : M A := fun w => (Ok a, w).

Definition mbind {A B : Type} (m : M A) (k : A -> M B) : M B :=
  fun w =>
    match m w with
    | (Ok a, w') => k a w'
    | (Raise e, w') => (Raise e, w')
    end.

Definition lift {A : Type} (r : result A) : M A := fun w => (r, w).

Definition logger_debug (msg : message) : M unit :=
  fun w => (Ok tt, log DEBUG msg w).

Notation "x <- m ;; k" := (mbind m (fun x => k))
  (at level 61, m at next level, right associativity).
Notation "m ;; k" := (mbind m (fun _ => k))
  (at level 61, right associativity).

(** ** [future_reset_vesting_plans.py] *)

(** A row of the [vestingPlans] getter:
    [(amount, claimedAmount, startTime, endTime)]. *)
Definition VestingPlan : Type := (Z * Z * Z * Z)%type.

Definition calculate_future_locked_amount
    (vesting_plan : VestingPlan) (future_timestamp : Z) : M Z :=
  let '(amount, claimed_amount, start_time, end_time) := vesting_plan in
  logger_debug (MsgCalculating amount claimed_amount start_time end_time) ;;
  if amount =? 0 then
    logger_debug MsgZeroAmount ;;
    ret 0
  else
    unlocked <-
      (if future_timestamp >=? end_time then
         let unlocked := amount in
         logger_debug (MsgFullyUnlocked unlocked) ;;
         ret unlocked
       else if future_timestamp <=? start_time then
         let unlocked := 0 in
         logger_debug (MsgNothingUnlocked unlocked) ;;
         ret unlocked
       else
         let duration := end_time - start_time in
         let elapsed := future_timestamp - start_time in
         unlocked <- lift (floordiv (amount * elapsed) duration) ;;
         logger_debug (MsgPartialUnlock duration elapsed unlocked) ;;
         ret unlocked) ;;
    let locked := amount - unlocked in
    logger_debug (MsgFinalLocked locked) ;;
    ret locked.

(** [batch_list] is a generator; its model is the outcome of iterating it
    to the end, [list(batch_list(input_list, batch_size))]: the batches
    yielded, or the exception of [range], which is raised at the first
    step of the iteration. *)
Definition batch_list {A : Type} (input_list : list A) (batch_size : Z)
  : result (list (list A)) :=
  bind (range 0 (len input_list) batch_size) (fun indices =>
  Ok (map (fun i => slice input_list i (i + batch_size)) indices)).

(** ** [reset_vesting_plans.py] *)

(** The batching loop of [update_vesting_plans]: the successive values of
    [batch_data], one per iteration of [for batch_num in
    range(total_batches)], when every transaction goes through. *)
Definition update_vesting_plans_batches {A : Type}
    (updated_data : list A) (batch_size : Z) : result (list (list A)) :=
  bind (floordiv (len updated_data + batch_size - 1) batch_size)
       (fun total_batches =>
  bind (range 0 total_batches 1) (fun batch_nums =>
  Ok (map (fun batch_num =>
             let start_idx := batch_num * batch_size in
             let end_idx :=
               Z.min ((batch_num + 1) * batch_size) (len updated_data) in
             slice updated_data start_idx end_idx)
          batch_nums))).

(** ** Values and exceptions of the orchestration code

    The functions below are the parts of the three scripts that sit between
    the network calls.  What a network call returned is an argument of the
    model.  Writes to stdout ([print]) and the [logger.info] and
    [logger.error] records are not represented.  The log lines of [main]
    divide amounts by [1e18]; amounts are [uint256] values of the contracts
    or sums of a few of them, far below the range of a float, so that
    formatting a line does not raise. *)

(** A checksummed address, by its 20-byte value, and a transaction hash,
    by its value. *)
Definition address : Type := Z.
Definition tx_hash : Type := Z.

(** What the orchestration code can raise besides the exceptions of [Py]:
    [SendFailure] stands for any exception that leaves
    [send_batch_transaction]. *)
Inductive raised : Type :=
| Builtin (e : exn)
| IndexError
| UnboundLocalError
| SendFailure.

Inductive outcome (A : Type) : Type :=
| Returned (a : A)
| Raised (e : raised).
Arguments Returned {A} a.
Arguments Raised {A} e.

(** [l[i]] for an index [i >= 0], as [enumerate] produces. *)
Definition index {A : Type} (l : list A) (i : nat) : outcome A :=
  match nth_error l i with
  | Some a => Returned a
  | None => Raised IndexError
  end.

(** [plan[0]] *)
Definition plan_amount (plan : VestingPlan) : Z :=
  let '(amount, _, _, _) := plan in amount.

(** [plan[1]] *)
Definition plan_claimed (plan : VestingPlan) : Z :=
  let '(_, claimed_amount, _, _) := plan in claimed_amount.

(** Effects of [update_vesting_plans] on the outside: a call of
    [send_batch_transaction], a [time.sleep], a call of [save_progress]. *)
Inductive effect : Type :=
| Sent (batch_num : Z) (users : list address) (amounts : list Z)
| Slept (seconds : Z)
| Saved (transaction_hashes : list tx_hash) (batches_processed : Z).

(** [send_batch_transaction] for the configured token: the hash of the
    confirmed transaction, or [None] when the call raises. *)
Definition sender : Type := Z -> list address -> list Z -> option tx_hash.

Module ResetVestingPlans.

Fixpoint prepare_update_data_loop (i : nat) (user_updates : list (address * Z))
    (current_locked : list Z) (updated_data : list (address * Z))
  : outcome (list (address * Z)) :=
  match user_updates with
  | [] => Returned updated_data
  | (user, amount_to_add) :: rest =>
      match index current_locked i with
      | Raised e => Raised e
      | Returned current_amount =>
          let new_amount := current_amount + amount_to_add in
          prepare_update_data_loop (S i) rest current_locked
            (updated_data ++ [(user, new_amount)])
      end
  end.

Definition prepare_update_data (user_updates : list (address * Z))
    (current_locked : list Z) : outcome (list (address * Z)) :=
  prepare_update_data_loop 0 user_updates current_locked [].

(** The [for batch_num in range(total_batches)] loop of
    [update_vesting_plans], with the hashes collected so far. *)
Fixpoint send_batches (send_batch_transaction : sender)
    (updated_data : list (address * Z)) (batch_size total_batches : Z)
    (batch_nums : list Z) (transaction_hashes : list tx_hash)
  : list effect * outcome (list tx_hash) :=
  match batch_nums with
  | [] => ([], Returned transaction_hashes)
  | batch_num :: rest =>
      let start_idx := batch_num * batch_size in
      let end_idx :=
        Z.min ((batch_num + 1) * batch_size) (len updated_data) in
      let batch_data := slice updated_data start_idx end_idx in
      let batch_users := map fst batch_data in
      let batch_amounts := map snd batch_data in
      match send_batch_transaction (batch_num + 1) batch_users batch_amounts
      with
      | Some tx_hash =>
          let transaction_hashes := transaction_hashes ++ [tx_hash] in
          let pause :=
            if batch_num <? total_batches - 1 then [Slept 2] else [] in
          let '(effects, r) :=
            send_batches send_batch_transaction updated_data batch_size
              total_batches rest transaction_hashes in
          (Sent (batch_num + 1) batch_users batch_amounts :: pause ++ effects,
           r)
      | None =>
          ([Sent (batch_num + 1) batch_users batch_amounts;
            Saved transaction_hashes batch_num],
           Raised SendFailure)
      end
  end.

(** [update_vesting_plans] from the point where the CSV rows
    ([user_updates]) and the answer of [get_current_locked_amounts]
    ([current_locked]) are known. *)
Definition update_vesting_plans (send_batch_transaction : sender)
    (user_updates : list (address * Z)) (current_locked : list Z)
    (batch_size : Z) : list effect * outcome unit :=
  match prepare_update_data user_updates current_locked with
  | Raised e => ([], Raised e)
  | Returned updated_data =>
      match floordiv (len updated_data + batch_size - 1) batch_size with
      | Raise e => ([], Raised (Builtin e))
      | Ok total_batches =>
          match range 0 total_batches 1 with
          | Raise e => ([], Raised (Builtin e))
          | Ok batch_nums =>
              match send_batches send_batch_transaction updated_data
                      batch_size total_batches batch_nums [] with
              | (effects, Raised e) => (effects, Raised e)
              | (effects, Returned transaction_hashes) =>
                  (effects ++ [Saved transaction_hashes total_batches],
                   Returned tt)
              end
          end
      end
  end.

End ResetVestingPlans.

Module FutureReset.

Definition NEW_START_TIME : Z := 1749996000.
Definition NEW_END_TIME : Z := 1758386880.
Definition EXECUTION_TIMESTAMP : Z := 1749996000.
Definition BATCH_SIZE : Z := 150.

(** The loop "Identify users without vesting plans" of [main]. *)
Fixpoint identify_no_vesting (i : nat) (users_data : list (address * Z))
    (vesting_results : list VestingPlan) (no_vesting_users : list address)
  : outcome (list address) :=
  match users_data with
  | [] => Returned no_vesting_users
  | (user, _) :: rest =>
      match index vesting_results i with
      | Raised e => Raised e
      | Returned plan =>
          identify_no_vesting (S i) rest vesting_results
            (if plan_amount plan =? 0 then no_vesting_users ++ [user]
             else no_vesting_users)
      end
  end.

(** The [pending_amounts] dictionary, latest binding first. *)
Definition dict : Type := list (address * Z).

Definition dict_set (d : dict) (key : address) (value : Z) : dict :=
  (key, value) :: d.

Fixpoint dict_get (d : dict) (key : address) (default : Z) : Z :=
  match d with
  | [] => default
  | (k, v) :: d' => if k =? key then v else dict_get d' key default
  end.

(** [for i, user in enumerate(no_vesting_users):
       pending_amounts[user] = pending_results[i]];
    on an [IndexError] the entries stored so far stay. *)
Fixpoint store_pending (i : nat) (no_vesting_users : list address)
    (pending_results : list Z) (pending_amounts : dict)
  : dict * outcome unit :=
  match no_vesting_users with
  | [] => (pending_amounts, Returned tt)
  | user :: rest =>
      match index pending_results i with
      | Raised e => (pending_amounts, Raised e)
      | Returned pending =>
          store_pending (S i) rest pending_results
            (dict_set pending_amounts user pending)
      end
  end.

(** The handler of that block: [pending_amounts[user] = 0] for every
    user without a plan. *)
Definition zero_pending (no_vesting_users : list address)
    (pending_amounts : dict) : dict :=
  fold_left (fun d user => dict_set d user 0) no_vesting_users
    pending_amounts.

(** The block "Batch fetch pending amounts", entered when there is a user
    without a plan; [pending_call] is what the [pendingAmount] multicall
    returned, [None] when it raised.  Any exception of the block ends in
    the handler, which sets every pending amount to 0. *)
Definition fetch_pending_amounts (no_vesting_users : list address)
    (pending_call : option (list Z)) : dict :=
  match no_vesting_users with
  | [] => []
  | _ :: _ =>
      match pending_call with
      | None => zero_pending no_vesting_users []
      | Some pending_results =>
          match store_pending 0 no_vesting_users pending_results [] with
          | (pending_amounts, Returned _) => pending_amounts
          | (pending_amounts, Raised _) =>
              zero_pending no_vesting_users pending_amounts
          end
      end
  end.

(** The variables the processing loop of [main] updates. *)
Record summary : Type := mkSummary {
  setup_users : list address;
  setup_amounts : list Z;
  reset_users : list address;
  reset_amounts : list Z;
  existing_plans_count : Z;
  new_plans_count : Z;
  total_new_vested_amount : Z;
  total_setup_new_amount : Z;
  total_reset_new_amount : Z;
  total_pending_amount : Z
}.

Definition initial : summary := mkSummary [] [] [] [] 0 0 0 0 0 0.

(** [total_new_vested_amount += csv_amount] *)
Definition add_new_vested (s : summary) (csv_amount : Z) : summary :=
  mkSummary (setup_users s) (setup_amounts s) (reset_users s)
    (reset_amounts s) (existing_plans_count s) (new_plans_count s)
    (total_new_vested_amount s + csv_amount) (total_setup_new_amount s)
    (total_reset_new_amount s) (total_pending_amount s).

(** The updates of the branch [plan[0] == 0]. *)
Definition record_setup (s : summary) (user : address)
    (total_amount csv_amount pending : Z) : summary :=
  mkSummary (setup_users s ++ [user]) (setup_amounts s ++ [total_amount])
    (reset_users s) (reset_amounts s) (existing_plans_count s)
    (new_plans_count s + 1) (total_new_vested_amount s)
    (total_setup_new_amount s + csv_amount) (total_reset_new_amount s)
    (total_pending_amount s + pending).

(** [existing_plans_count += 1] *)
Definition count_existing (s : summary) : summary :=
  mkSummary (setup_users s) (setup_amounts s) (reset_users s)
    (reset_amounts s) (existing_plans_count s + 1) (new_plans_count s)
    (total_new_vested_amount s) (total_setup_new_amount s)
    (total_reset_new_amount s) (total_pending_amount s).

(** The updates of the other branch, after the locked amount is known. *)
Definition record_reset (s : summary) (user : address)
    (total_amount csv_amount : Z) : summary :=
  mkSummary (setup_users s) (setup_amounts s) (reset_users s ++ [user])
    (reset_amounts s ++ [total_amount]) (existing_plans_count s)
    (new_plans_count s) (total_new_vested_amount s)
    (total_setup_new_amount s) (total_reset_new_amount s + csv_amount)
    (total_pending_amount s).

(** The loop "Individual Address Processing" of [main].  An exception in
    the body is caught and the loop continues with the next row, keeping
    the updates made before it; the handler formats [user_index], which
    is unbound when the first row fails before assigning it.  The log
    line of a row comes after all its updates. *)
Fixpoint process_results (i : nat) (users_data : list (address * Z))
    (vesting_results : list VestingPlan) (pending_amounts : dict)
    (s : summary) (w : world) : outcome summary * world :=
  match users_data with
  | [] => (Returned s, w)
  | (user, csv_amount) :: rest =>
      match index vesting_results i with
      | Raised _ =>
          match i with
          | O => (Raised UnboundLocalError, w)
          | S _ =>
              process_results (S i) rest vesting_results pending_amounts s w
          end
      | Returned plan =>
          let s := add_new_vested s csv_amount in
          if plan_amount plan =? 0 then
            let pending := dict_get pending_amounts user 0 in
            let total_amount := csv_amount + pending in
            process_results (S i) rest vesting_results pending_amounts
              (record_setup s user total_amount csv_amount pending) w
          else
            let s := count_existing s in
            match calculate_future_locked_amount plan EXECUTION_TIMESTAMP w
            with
            | (Ok future_locked, w') =>
                let total_amount := future_locked + csv_amount in
                process_results (S i) rest vesting_results pending_amounts
                  (record_reset s user total_amount csv_amount) w'
            | (Raise _, w') =>
                process_results (S i) rest vesting_results pending_amounts
                  s w'
            end
      end
  end.

(** [main] from "Identify users without vesting plans" to the end of the
    processing loop: [users_data] are the CSV rows, [vesting_results] the
    answer of the [vestingPlans] multicall. *)
Definition process_users (users_data : list (address * Z))
    (vesting_results : list VestingPlan) (pending_call : option (list Z))
    (w : world) : outcome summary * world :=
  match identify_no_vesting 0 users_data vesting_results [] with
  | Raised e => (Raised e, w)
  | Returned no_vesting_users =>
      let pending_amounts :=
        fetch_pending_amounts no_vesting_users pending_call in
      process_results 0 users_data vesting_results pending_amounts
        initial w
  end.

(** [num_batches] of the setup block. *)
Definition num_batches (setup_users : list address) : result Z :=
  floordiv (len setup_users + BATCH_SIZE - 1) BATCH_SIZE.

(** The pairs [(batch_users, batch_amounts)] the setup block encodes,
    [zip(user_batches, amount_batches)]; the block runs when [setup_users]
    is not empty. *)
Definition setup_batches (setup_users : list address)
    (setup_amounts : list Z) : result (list (list address * list Z)) :=
  bind (batch_list setup_users BATCH_SIZE) (fun user_batches =>
  bind (batch_list setup_amounts BATCH_SIZE) (fun amount_batches =>
  Ok (combine user_batches amount_batches))).

End FutureReset.

Module VestingSetup.

Fixpoint categorize_users_loop (i : nat) (user_updates : list (address * Z))
    (vesting_info : list VestingPlan)
    (existing_users new_users : list (address * Z))
  : outcome (list (address * Z) * list (address * Z)) :=
  match user_updates with
  | [] => Returned (existing_users, new_users)
  | (user, amount) :: rest =>
      match index vesting_info i with
      | Raised e => Raised e
      | Returned plan =>
          let total_amount := plan_amount plan in
          if total_amount >? 0 then
            categorize_users_loop (S i) rest vesting_info
              (existing_users ++ [(user, amount)]) new_users
          else
            categorize_users_loop (S i) rest vesting_info
              existing_users (new_users ++ [(user, amount)])
      end
  end.

Definition categorize_users (user_updates : list (address * Z))
    (vesting_info : list VestingPlan)
  : outcome (list (address * Z) * list (address * Z)) :=
  categorize_users_loop 0 user_updates vesting_info [] [].

(** The value [prepare_update_data] returns; [dry_run] only adds output. *)
Fixpoint prepare_update_data_loop (i : nat) (user_updates : list (address * Z))
    (vesting_info : list VestingPlan)
    (existing_updates new_setups : list (address * Z))
  : outcome (list (address * Z) * list (address * Z)) :=
  match user_updates with
  | [] => Returned (existing_updates, new_setups)
  | (user, amount_to_add) :: rest =>
      match index vesting_info i with
      | Raised e => Raised e
      | Returned plan =>
          let total_amount := plan_amount plan in
          let claimed_amount := plan_claimed plan in
          if total_amount >? 0 then
            let current_locked := total_amount - claimed_amount in
            let new_amount := current_locked + amount_to_add in
            prepare_update_data_loop (S i) rest vesting_info
              (existing_updates ++ [(user, new_amount)]) new_setups
          else
            prepare_update_data_loop (S i) rest vesting_info
              existing_updates (new_setups ++ [(user, amount_to_add)])
      end
  end.

Definition prepare_update_data (user_updates : list (address * Z))
    (vesting_info : list VestingPlan)
  : outcome (list (address * Z) * list (address * Z)) :=
  prepare_update_data_loop 0 user_updates vesting_info [] [].

End VestingSetup.

(** * Closed forms used in the proofs *)

(** The value [calculate_future_locked_amount] computes, as one
    expression. *)
Definition locked_value (vesting_plan : VestingPlan) (t : Z) : Z :=
  let '(amount, _, start_time, end_time) := vesting_plan in
  if amount =? 0 then 0
  else if t >=? end_time then 0
  else if t <=? start_time then amount
  else amount - (amount * (t - start_time)) / (end_time - start_time).

(** The [k]-th run of [n] consecutive elements of [l]. *)
Definition chunk {A : Type} (n : nat) (l : list A) (k : nat) : list A :=
  firstn n (skipn (k * n) l).

(** * Properties of [calculate_future_locked_amount] *)

(** Projections of a list of effects. *)
Definition sent_calls (effects : list effect)
  : list (Z * list address * list Z) :=
  flat_map (fun e => match e with
                     | Sent n users amounts => [(n, users, amounts)]
                     | _ => []
                     end) effects.

Definition saved_progress (effects : list effect)
  : list (list tx_hash * Z) :=
  flat_map (fun e => match e with
                     | Saved hashes n => [(hashes, n)]
                     | _ => []
                     end) effects.

Definition sleeps (effects : list effect) : list Z :=
  flat_map (fun e => match e with
                     | Slept seconds => [seconds]
                     | _ => []
                     end) effects.

(** Sum of a list of integers, Python's [sum]. *)
Definition total (l : list Z) : Z := fold_right Z.add 0 l.

(** The call [update_vesting_plans] makes for [batch_num]. *)
Definition batch_call (updated_data : list (address * Z)) (batch_size : Z)
    (batch_num : Z) : Z * list address * list Z :=
  let batch_data :=
    slice updated_data (batch_num * batch_size)
      (Z.min ((batch_num + 1) * batch_size) (len updated_data)) in
  (batch_num + 1, map fst batch_data, map snd batch_data).

(** The effect of making a call, and what the transaction answers. *)
Definition call_effect (c : Z * list address * list Z) : effect :=
  Sent (fst (fst c)) (snd (fst c)) (snd c).

Definition answer (send_batch_transaction : sender)
    (c : Z * list address * list Z) : option tx_hash :=
  send_batch_transaction (fst (fst c)) (snd (fst c)) (snd c).

(** The calls in order, with a pause of 2 seconds after each one but the
    last. *)
Fixpoint with_pauses (calls : list (Z * list address * list Z))
  : list effect :=
  match calls with
  | [] => []
  | c :: rest =>
      call_effect c
      :: match rest with
         | [] => []
         | _ :: _ => Slept 2 :: with_pauses rest
         end
  end.

(** The effects of the sending loop over [batch_nums] when every
    transaction goes through. *)
Definition loop_effects (updated_data : list (address * Z))
    (batch_size total_batches : Z) (batch_nums : list Z) : list effect :=
  flat_map (fun k =>
              call_effect (batch_call updated_data batch_size k)
              :: (if k <? total_batches - 1 then [Slept 2] else []))
    batch_nums.

(** One iteration of the processing loop of [main], on a CSV row paired
    with its plan, with the locked amount in closed form. *)
Definition process_row (pending_amounts : FutureReset.dict)
    (s : FutureReset.summary) (row : address * Z * VestingPlan)
  : FutureReset.summary :=
  let '(user, csv_amount, plan) := row in
  let s := FutureReset.add_new_vested s csv_amount in
  if plan_amount plan =? 0 then
    let pending := FutureReset.dict_get pending_amounts user 0 in
    FutureReset.record_setup s user (csv_amount + pending) csv_amount pending
  else
    FutureReset.record_reset (FutureReset.count_existing s) user
      (locked_value plan FutureReset.EXECUTION_TIMESTAMP + csv_amount)
      csv_amount.

(** A row whose user has no plan yet. *)
Definition is_new (row : address * Z * VestingPlan) : bool :=
  plan_amount (snd row) =? 0.

Definition row_user (row : address * Z * VestingPlan) : address :=
  fst (fst row).

Definition row_amount (row : address * Z * VestingPlan) : Z :=
  snd (fst row).

(** A row whose plan has a positive total, the test of
    [vesting_setup.py]. *)
Definition has_plan (row : address * Z * VestingPlan) : bool :=
  plan_amount (snd row) >? 0.

(** The update [vesting_setup.py] prepares for a row with a plan. *)
Definition updated_row (row : address * Z * VestingPlan) : address * Z :=
  (row_user row,
   plan_amount (snd row) - plan_claimed (snd row) + row_amount row).

Ltac unfold_calc :=
  unfold calculate_future_locked_amount, mbind, logger_debug, lift, ret,
    floordiv; cbn beta iota.

Ltac split_tests :=
  repeat match goal with
  | |- context [?a =? ?b] => destruct (Z.eqb_spec a b)
  | |- context [?a >=? ?b] => destruct (Z.geb_spec a b)
  | |- context [?a <=? ?b] => destruct (Z.leb_spec a b)
  | |- context [?a <? ?b] => destruct (Z.ltb_spec a b)
  end.

Lemma calculate_future_locked_amount_value (p : VestingPlan) (t : Z) (w : world) :
  fst (calculate_future_locked_amount p t w) = Ok (locked_value p t).
Proof.
  destruct p as [[[amount claimed] s] e].
  unfold_calc. unfold locked_value.
  split_tests; cbn; first [reflexivity | lia | f_equal; lia].
Qed.

Lemma log_debug_quiet (msg : message) (w : world) :
  DEBUG < level w -> log DEBUG msg w = w.
Proof.
  intros H. unfold log. destruct (Z.leb_spec (level w) DEBUG); [lia | reflexivity].
Qed.

Lemma log_append (lvl : Z) (msg : message) (w : world) :
  log lvl msg w
  = mkWorld (level w)
      (emitted w ++ (if level w <=? lvl then [(lvl, msg)] else [])).
Proof.
  unfold log. destruct (level w <=? lvl); [reflexivity |].
  rewrite app_nil_r. destruct w; reflexivity.
Qed.

Lemma calculate_future_locked_amount_quiet (p : VestingPlan) (t : Z) (w : world) :
  DEBUG < level w -> snd (calculate_future_locked_amount p t w) = w.
Proof.
  intros H. destruct p as [[[amount claimed] s] e].
  unfold_calc.
  split_tests; cbn;
    repeat rewrite (log_debug_quiet _ w) by assumption;
    first [reflexivity | lia].
Qed.

(** The function never raises: the division is reached only when
    [start_time < future_timestamp < end_time], where the divisor is
    positive. *)
Lemma calculate_future_locked_amount_total (p : VestingPlan) (t : Z) (w : world) :
  ~ raises (fst (calculate_future_locked_amount p t w)).
Proof.
  rewrite calculate_future_locked_amount_value.
  intros [e He]. discriminate He.
Qed.

(** In the linear part the unlocked share lies between 0 and the total. *)
Lemma unlocked_share_bounds (amount elapsed duration : Z) :
  0 <= amount -> 0 <= elapsed <= duration -> 0 < duration ->
  0 <= (amount * elapsed) / duration <= amount.
Proof.
  intros Ha He Hd. split.
  - apply Z.div_pos; nia.
  - apply Z.div_le_upper_bound; nia.
Qed.

Lemma locked_value_bounds (amount claimed s e t : Z) :
  0 <= amount -> 0 <= locked_value (amount, claimed, s, e) t <= amount.
Proof.
  intros Ha. unfold locked_value. split_tests; try lia.
  pose proof (unlocked_share_bounds amount (t - s) (e - s)). lia.
Qed.

Lemma locked_value_antitone (amount claimed s e t1 t2 : Z) :
  0 <= amount -> t1 <= t2 ->
  locked_value (amount, claimed, s, e) t2 <= locked_value (amount, claimed, s, e) t1.
Proof.
  intros Ha Ht. unfold locked_value. split_tests; try lia.
  - pose proof (unlocked_share_bounds amount (t1 - s) (e - s)). lia.
  - pose proof (unlocked_share_bounds amount (t2 - s) (e - s)). lia.
  - assert (amount * (t1 - s) / (e - s) <= amount * (t2 - s) / (e - s)).
    { apply Z.div_le_mono; nia. }
    lia.
Qed.

(** C1.  The locked amount is 0 for an empty plan, 0 from [endTime] on,
    [totalAmount] up to [startTime], and in between [totalAmount] minus
    the quotient of [totalAmount * (atTime - startTime)] by
    [endTime - startTime].  The source divides with [//] (floor); on
    unsigned amounts that is the truncating quotient as well.  The plan
    (1000, 0, 1000, 2000) has 500 locked at 1500. *)
Theorem locked_amount_formula
    (totalAmount claimedAmount startTime endTime atTime : Z) (w : world) :
  0 <= totalAmount ->
  fst (calculate_future_locked_amount
         (totalAmount, claimedAmount, startTime, endTime) atTime w)
  = Ok (if totalAmount =? 0 then 0
        else if atTime >=? endTime then 0
        else if atTime <=? startTime then totalAmount
        else totalAmount
             - (totalAmount * (atTime - startTime)) / (endTime - startTime))
  /\
  fst (calculate_future_locked_amount
         (totalAmount, claimedAmount, startTime, endTime) atTime w)
  = Ok (if totalAmount =? 0 then 0
        else if atTime >=? endTime then 0
        else if atTime <=? startTime then totalAmount
        else totalAmount
             - (totalAmount * (atTime - startTime)) ÷ (endTime - startTime))
  /\
  fst (calculate_future_locked_amount (1000, 0, 1000, 2000) 1500 w) = Ok 500.
Proof.
  intros Ha. rewrite !calculate_future_locked_amount_value.
  split; [reflexivity | split; [| reflexivity]].
  unfold locked_value. split_tests; try reflexivity.
  rewrite Z.quot_div_nonneg by nia. reflexivity.
Qed.

Lemma locked_amount_formula_witness :
  0 <= 900 /\
  fst (calculate_future_locked_amount (900, 100, 10, 40) 20 configured)
  = Ok (900 - (900 * (20 - 10)) ÷ (40 - 10)).
Proof.
  split; [lia |].
  destruct (locked_amount_formula 900 100 10 40 20 configured) as (_ & H & _).
  - lia.
  - exact H.
Defined.

(** C3 fails as stated: with [startTime = endTime] the function returns
    normally; here the plan (1000, 0, 1000, 1000) at 1500 gives 0. *)
Lemma degenerate_plan_returns :
  let r := fst (calculate_future_locked_amount (1000, 0, 1000, 1000) 1500
                  configured) in
  r = Ok 0 /\ ~ raises r.
Proof.
  cbv zeta. split; [reflexivity |].
  intros [e He]. discriminate He.
Qed.

(** C3, amended.  With [startTime = endTime] no exception is raised and no
    division is evaluated: one of the two comparisons with the bounds
    always holds, so the result is 0 for an empty plan or from [endTime]
    on, and [totalAmount] before.  In particular there is no
    [ZeroDivisionError]. *)
Theorem degenerate_plan_no_error
    (totalAmount claimedAmount startTime endTime atTime : Z) (w : world) :
  startTime = endTime ->
  let r := fst (calculate_future_locked_amount
                  (totalAmount, claimedAmount, startTime, endTime) atTime w) in
  r = Ok (if totalAmount =? 0 then 0
          else if atTime >=? endTime then 0
          else totalAmount)
  /\ ~ raises r
  /\ r <> Raise ZeroDivisionError.
Proof.
  intros Hse r. subst r.
  split; [| split].
  - rewrite calculate_future_locked_amount_value. unfold locked_value.
    split_tests; first [reflexivity | lia].
  - apply calculate_future_locked_amount_total.
  - rewrite calculate_future_locked_amount_value. discriminate.
Qed.

Lemma degenerate_plan_no_error_witness :
  1000 = 1000 /\
  fst (calculate_future_locked_amount (700, 0, 1000, 1000) 999 configured)
  = Ok 700.
Proof.
  split; [reflexivity |].
  exact (proj1 (degenerate_plan_no_error 700 0 1000 1000 999 configured
                  eq_refl)).
Defined.

(** C5.  For a fixed plan with an unsigned total, the locked amount does
    not increase with the timestamp. *)
Theorem locked_amount_non_increasing
    (totalAmount claimedAmount startTime endTime t1 t2 : Z) (w1 w2 : world) :
  0 <= totalAmount -> t1 <= t2 ->
  exists v1 v2,
    fst (calculate_future_locked_amount
           (totalAmount, claimedAmount, startTime, endTime) t1 w1) = Ok v1
    /\ fst (calculate_future_locked_amount
              (totalAmount, claimedAmount, startTime, endTime) t2 w2) = Ok v2
    /\ v1 >= v2.
Proof.
  intros Ha Ht.
  exists (locked_value (totalAmount, claimedAmount, startTime, endTime) t1),
         (locked_value (totalAmount, claimedAmount, startTime, endTime) t2).
  rewrite !calculate_future_locked_amount_value.
  repeat split.
  apply Z.le_ge, locked_value_antitone; assumption.
Qed.

Lemma locked_amount_non_increasing_witness :
  0 <= 1000 /\ 1250 <= 1750 /\
  exists v1 v2,
    fst (calculate_future_locked_amount (1000, 0, 1000, 2000) 1250 configured)
    = Ok v1
    /\ fst (calculate_future_locked_amount (1000, 0, 1000, 2000) 1750
              configured) = Ok v2
    /\ v1 >= v2.
Proof.
  split; [lia | split; [lia |]].
  apply (locked_amount_non_increasing 1000 0 1000 2000 1250 1750); lia.
Defined.

(** At [endTime] nothing is locked, for every plan.  At [startTime] the
    whole of [totalAmount] is locked when [startTime < endTime]; a plan
    with [startTime >= endTime] has nothing locked there, the test
    against [endTime] coming first. *)
Lemma locked_amount_at_bounds
    (totalAmount claimedAmount startTime endTime : Z) (w : world) :
  fst (calculate_future_locked_amount
         (totalAmount, claimedAmount, startTime, endTime) endTime w) = Ok 0
  /\
  fst (calculate_future_locked_amount
         (totalAmount, claimedAmount, startTime, endTime) startTime w)
  = Ok (if startTime <? endTime then totalAmount else 0).
Proof.
  rewrite !calculate_future_locked_amount_value. unfold locked_value.
  split; split_tests; first [reflexivity | lia | f_equal; lia].
Qed.

(** C6.  For every plan, that is with [startTime < endTime] (a plan with
    [startTime = endTime] violates the precondition of the locked
    amount), nothing is locked at [endTime] and the whole of
    [totalAmount] is locked at [startTime]. *)
Theorem locked_amount_at_start_and_end
    (totalAmount claimedAmount startTime endTime : Z) (w : world) :
  startTime < endTime ->
  fst (calculate_future_locked_amount
         (totalAmount, claimedAmount, startTime, endTime) endTime w) = Ok 0
  /\
  fst (calculate_future_locked_amount
         (totalAmount, claimedAmount, startTime, endTime) startTime w)
  = Ok totalAmount.
Proof.
  intros Hse. rewrite !calculate_future_locked_amount_value.
  unfold locked_value.
  split; split_tests; first [reflexivity | lia | f_equal; lia].
Qed.

Lemma locked_amount_at_start_and_end_witness :
  1000 < 2000
  /\ fst (calculate_future_locked_amount (1000, 0, 1000, 2000) 2000
            configured) = Ok 0
  /\ fst (calculate_future_locked_amount (1000, 0, 1000, 2000) 1000
            configured) = Ok 1000.
Proof.
  split; [lia |].
  apply (locked_amount_at_start_and_end 1000 0 1000 2000 configured). lia.
Defined.

(** C7.  The returned value does not depend on [claimedAmount]. *)
Theorem claimed_amount_irrelevant
    (totalAmount claimed1 claimed2 startTime endTime atTime : Z) (w : world) :
  fst (calculate_future_locked_amount
         (totalAmount, claimed1, startTime, endTime) atTime w)
  = fst (calculate_future_locked_amount
           (totalAmount, claimed2, startTime, endTime) atTime w).
Proof.
  rewrite !calculate_future_locked_amount_value. reflexivity.
Qed.

(** C8.  For an unsigned total and any times, in any order, the result
    lies between 0 and [totalAmount]. *)
Theorem locked_amount_bounded
    (totalAmount claimedAmount startTime endTime atTime : Z) (w : world) :
  0 <= totalAmount ->
  exists v,
    fst (calculate_future_locked_amount
           (totalAmount, claimedAmount, startTime, endTime) atTime w) = Ok v
    /\ 0 <= v <= totalAmount.
Proof.
  intros Ha.
  exists (locked_value (totalAmount, claimedAmount, startTime, endTime) atTime).
  split.
  - apply calculate_future_locked_amount_value.
  - apply locked_value_bounds. assumption.
Qed.

Lemma locked_amount_bounded_witness :
  0 <= 7 /\
  exists v,
    fst (calculate_future_locked_amount (7, 3, 50, 20) 30 configured) = Ok v
    /\ 0 <= v <= 7.
Proof.
  split; [lia |].
  apply (locked_amount_bounded 7 3 50 20 30 configured). lia.
Defined.

(** C9 fails as stated: the function writes to the log.  With [DEBUG]
    enabled a call appends its records, so the state after the call is
    not the state before it. *)
Lemma locked_amount_call_logs :
  snd (calculate_future_locked_amount (1000, 0, 1000, 2000) 1500
         (mkWorld DEBUG []))
  = mkWorld DEBUG
      [(DEBUG, MsgCalculating 1000 0 1000 2000);
       (DEBUG, MsgPartialUnlock 1000 500 500);
       (DEBUG, MsgFinalLocked 500)]
  /\ snd (calculate_future_locked_amount (1000, 0, 1000, 2000) 1500
            (mkWorld DEBUG []))
     <> mkWorld DEBUG [].
Proof.
  split; [reflexivity | discriminate].
Qed.

(** C9, amended.  Two calls with equal plans and equal timestamps return
    equal results, whatever the state of the logger.  The only state a
    call touches is the log: the level stays, and the records emitted
    before stay, followed by the [DEBUG] records of the call, two for an
    empty plan and three for any other when [DEBUG] is enabled, none
    otherwise; so with [DEBUG] disabled, as the script configures the
    logger, the state is left as it was. *)
Theorem locked_amount_deterministic_logging_only
    (p1 p2 : VestingPlan) (t1 t2 : Z) (w1 w2 : world) :
  p1 = p2 -> t1 = t2 ->
  fst (calculate_future_locked_amount p1 t1 w1)
  = fst (calculate_future_locked_amount p2 t2 w2)
  /\ (exists records,
        snd (calculate_future_locked_amount p1 t1 w1)
        = mkWorld (level w1) (emitted w1 ++ records)
        /\ Forall (fun r => fst r = DEBUG) records
        /\ length records
           = if level w1 <=? DEBUG
             then (if (let '(amount, _, _, _) := p1 in amount) =? 0
                   then 2%nat else 3%nat)
             else 0%nat)
  /\ (DEBUG < level w1 ->
      snd (calculate_future_locked_amount p1 t1 w1) = w1).
Proof.
  intros -> ->. split; [| split].
  - rewrite !calculate_future_locked_amount_value. reflexivity.
  - destruct p2 as [[[amount claimed] s] e].
    unfold_calc. rewrite !log_append.
    destruct (Z.eqb_spec amount 0);
      [| destruct (Z.geb_spec t2 e); [| destruct (Z.leb_spec t2 s);
         [| destruct (Z.eqb_spec (e - s) 0); [lia |]]]];
      cbn [fst snd level emitted]; rewrite ?log_append;
      cbn [fst snd level emitted]; rewrite <- ?app_assoc;
      (eexists; split; [reflexivity |]);
      destruct (level w1 <=? DEBUG); cbn; (split; [| reflexivity]);
      repeat constructor.
  - apply calculate_future_locked_amount_quiet.
Qed.

Lemma locked_amount_deterministic_logging_only_witness :
  (1000, 0, 1000, 2000) = (1000, 0, 1000, 2000) /\ 1500 = 1500
  /\ DEBUG < level configured
  /\ fst (calculate_future_locked_amount (1000, 0, 1000, 2000) 1500 configured)
  = fst (calculate_future_locked_amount (1000, 0, 1000, 2000) 1500
           (mkWorld DEBUG [(INFO, MsgZeroAmount)]))
  /\ snd (calculate_future_locked_amount (1000, 0, 1000, 2000) 1500 configured)
     = configured.
Proof.
  destruct (locked_amount_deterministic_logging_only
              (1000, 0, 1000, 2000) (1000, 0, 1000, 2000) 1500 1500
              configured (mkWorld DEBUG [(INFO, MsgZeroAmount)])
              eq_refl eq_refl) as (Hv & _ & Hq).
  split; [reflexivity |]. split; [reflexivity |].
  split; [reflexivity |]. split; [exact Hv |].
  apply Hq. reflexivity.
Defined.

(** * Properties of the batch splitters *)

Section Batches.

Context {A : Type}.
Implicit Types (l items : list A) (n : Z).

Lemma firstn_add_skipn (a b : nat) l :
  firstn (a + b) l = firstn a l ++ firstn b (skipn a l).
Proof.
  revert l. induction a as [| a IH]; intros l; [reflexivity |].
  destruct l as [| x l]; cbn.
  - now rewrite firstn_nil.
  - now rewrite IH.
Qed.

(** A slice with non-negative bounds, in terms of [firstn] and [skipn]. *)
Lemma slice_nonneg l (lo hi : Z) :
  0 <= lo -> 0 <= hi ->
  slice l lo hi = firstn (Z.to_nat hi - Z.to_nat lo) (skipn (Z.to_nat lo) l).
Proof.
  intros Hlo Hhi. unfold slice, clamp_index, len.
  destruct (Z.ltb_spec lo 0); [lia |].
  destruct (Z.ltb_spec hi 0); [lia |].
  destruct (Z_le_gt_dec lo (Z.of_nat (length l))) as [Hl | Hl].
  - rewrite (Z.min_l lo) by assumption.
    destruct (Z_le_gt_dec hi (Z.of_nat (length l))) as [Hh | Hh].
    + rewrite Z.min_l by assumption. f_equal. lia.
    + rewrite Z.min_r by lia.
      rewrite !firstn_all2; try reflexivity; rewrite length_skipn; lia.
  - rewrite (Z.min_r lo) by lia. rewrite Nat2Z.id.
    rewrite (skipn_all2 l (n := length l)) by lia.
    rewrite (skipn_all2 l (n := Z.to_nat lo)) by lia.
    now rewrite !firstn_nil.
Qed.

Lemma concat_chunks (n : nat) l (c : nat) :
  concat (map (chunk n l) (seq 0 c)) = firstn (c * n) l.
Proof.
  induction c as [| c IH]; [reflexivity |].
  rewrite seq_S, map_app, concat_app, IH. cbn [map concat Nat.add].
  rewrite app_nil_r. unfold chunk.
  rewrite <- firstn_add_skipn. f_equal. lia.
Qed.

Lemma length_chunk (n : nat) l (k : nat) :
  length (chunk n l k) = Nat.min n (length l - k * n).
Proof.
  unfold chunk. now rewrite length_firstn, length_skipn.
Qed.


Lemma range_length_forward (L n : Z) :
  0 <= L -> 0 < n -> range_length 0 L n = (L + n - 1) / n.
Proof.
  intros HL Hn. unfold range_length.
  destruct (Z.ltb_spec 0 n); [| lia]. cbn [andb].
  destruct (Z.ltb_spec 0 L).
  - replace (L + n - 1) with (L - 1 - 0 + 1 * n) by lia.
    rewrite Z.div_add by lia. lia.
  - destruct (Z.ltb_spec n 0); [lia |]. cbn [andb].
    rewrite Z.div_small by lia. reflexivity.
Qed.

(** [(L + n - 1) // n] is the ceiling of [L / n]. *)
Lemma ceiling_bounds (L n : Z) :
  0 < n ->
  ((L + n - 1) / n - 1) * n < L <= (L + n - 1) / n * n.
Proof.
  intros Hn.
  pose proof (Z.mul_div_le (L + n - 1) n Hn).
  pose proof (Z.mul_succ_div_gt (L + n - 1) n Hn).
  lia.
Qed.

Lemma batch_list_chunks items n :
  0 < n ->
  batch_list items n
  = Ok (map (chunk (Z.to_nat n) items)
            (seq 0 (Z.to_nat ((len items + n - 1) / n)))).
Proof.
  intros Hn. unfold batch_list, range.
  destruct (Z.eqb_spec n 0); [lia |]. cbn [bind].
  rewrite range_length_forward by (unfold len; lia).
  rewrite map_map. f_equal. apply map_ext. intros k.
  rewrite slice_nonneg by lia. unfold chunk.
  f_equal; [| f_equal]; lia.
Qed.

Lemma update_vesting_plans_batches_chunks items n :
  0 < n ->
  update_vesting_plans_batches items n
  = Ok (map (chunk (Z.to_nat n) items)
            (seq 0 (Z.to_nat ((len items + n - 1) / n)))).
Proof.
  intros Hn. unfold update_vesting_plans_batches, floordiv, range.
  destruct (Z.eqb_spec n 0); [lia |]. cbn [bind Z.eqb].
  pose proof (ceiling_bounds (len items) n Hn) as Hc.
  assert (0 <= (len items + n - 1) / n) as Hq
    by (apply Z.div_pos; unfold len; lia).
  rewrite range_length_forward by lia.
  replace ((len items + n - 1) / n + 1 - 1) with ((len items + n - 1) / n)
    by lia.
  rewrite Z.div_1_r, map_map. f_equal. apply map_ext_in. intros k Hk.
  apply in_seq in Hk.
  rewrite slice_nonneg by (unfold len; lia). unfold chunk.
  set (m := Z.to_nat n). set (s := skipn _ items).
  assert (s = skipn (k * m) items) as -> by (subst s m; f_equal; lia).
  destruct (Z_le_gt_dec ((0 + Z.of_nat k * 1 + 1) * n) (len items)).
  - rewrite Z.min_l by assumption. f_equal. subst m. lia.
  - rewrite Z.min_r by lia.
    rewrite !firstn_all2; try reflexivity; rewrite length_skipn;
      unfold len in *; subst m; lia.
Qed.

End Batches.

(** For a positive size both splitters produce [c] chunks, where
    [c] is the ceiling of [len items / n]. *)
Lemma chunk_count_bounds {A : Type} (items : list A) (n : Z) :
  0 < n ->
  let c := Z.to_nat ((len items + n - 1) / n) in
  Z.of_nat c = (len items + n - 1) / n
  /\ (length items <= c * Z.to_nat n)%nat
  /\ (forall k, (k < c)%nat -> (k * Z.to_nat n < length items)%nat).
Proof.
  intros Hn c.
  pose proof (ceiling_bounds (len items) n Hn) as Hc.
  assert (0 <= (len items + n - 1) / n) as Hq
    by (apply Z.div_pos; unfold len; lia).
  assert (Z.of_nat c = (len items + n - 1) / n) as Hcz
    by (subst c; apply Z2Nat.id; assumption).
  rewrite <- Hcz in Hc. unfold len in Hc.
  split; [assumption | split].
  - apply Nat2Z.inj_le. rewrite Nat2Z.inj_mul, Z2Nat.id by lia. lia.
  - intros k Hk. apply Nat2Z.inj_lt.
    rewrite Nat2Z.inj_mul, Z2Nat.id by lia. nia.
Qed.

(** C2.  For a positive size, [batch_list] returns contiguous slices of
    the input in order, whose concatenation is the input; every batch but
    the last has exactly [n] elements; no batch is empty, and an empty
    input gives no batch; the number of batches is the ceiling of
    [len items / n].  The loop of [update_vesting_plans] produces the same
    batches. *)
Theorem batch_list_partition {A : Type} (items : list A) (n : Z) :
  0 < n ->
  exists batches,
    batch_list items n = Ok batches
    /\ concat batches = items
    /\ (forall k b, nth_error batches k = Some b ->
          b = firstn (Z.to_nat n) (skipn (k * Z.to_nat n) items))
    /\ (forall k b, nth_error batches k = Some b ->
          (S k < length batches)%nat -> len b = n)
    /\ (forall b, In b batches -> b <> [])
    /\ (items = [] -> batches = [])
    /\ (len batches - 1) * n < len items <= len batches * n
    /\ len batches = (len items + n - 1) / n
    /\ update_vesting_plans_batches items n = Ok batches.
Proof.
  intros Hn.
  destruct (chunk_count_bounds items n Hn) as (Hcz & Hle & Hlt).
  pose proof (ceiling_bounds (len items) n Hn) as Hceil.
  set (c := Z.to_nat ((len items + n - 1) / n)) in *.
  set (m := Z.to_nat n) in *.
  assert (forall k b, nth_error (map (chunk m items) (seq 0 c)) k = Some b ->
            (k < c)%nat /\ b = chunk m items k) as Hnth.
  { intros k b. rewrite nth_error_map, nth_error_seq.
    destruct (Nat.ltb_spec k c); cbn; [| discriminate].
    intros [= <-]. split; [assumption | reflexivity]. }
  assert (length (map (chunk m items) (seq 0 c)) = c) as Hlen
    by now rewrite length_map, length_seq.
  exists (map (chunk m items) (seq 0 c)).
  split; [apply batch_list_chunks; assumption |].
  split; [rewrite concat_chunks; apply firstn_all2; assumption |].
  split; [intros k b Hb; apply Hnth in Hb; apply Hb |].
  split.
  { intros k b Hb Hk. apply Hnth in Hb. destruct Hb as [_ ->].
    rewrite Hlen in Hk. specialize (Hlt (S k) Hk).
    unfold len. rewrite length_chunk.
    rewrite Nat.min_l by (cbn in Hlt; lia). subst m. lia. }
  split.
  { intros b Hb. apply in_map_iff in Hb. destruct Hb as (k & <- & Hk).
    apply in_seq in Hk. specialize (Hlt k ltac:(lia)).
    intros Hnil. apply (f_equal (@length A)) in Hnil.
    rewrite length_chunk in Hnil. cbn in Hnil. subst m. lia. }
  split.
  { intros ->. destruct c as [| c']; [reflexivity |].
    specialize (Hlt 0%nat ltac:(lia)). cbn in Hlt. lia. }
  assert (len (map (chunk m items) (seq 0 c)) = (len items + n - 1) / n)
    as -> by (unfold len at 1; rewrite Hlen; exact Hcz).
  split; [exact Hceil |].
  split; [reflexivity |].
  apply update_vesting_plans_batches_chunks. assumption.
Qed.

Lemma batch_list_partition_witness :
  0 < 3 /\
  batch_list [1; 2; 3; 4; 5; 6; 7] 3 = Ok [[1; 2; 3]; [4; 5; 6]; [7]].
Proof.
  split; [lia |].
  destruct (batch_list_partition [1; 2; 3; 4; 5; 6; 7] 3) as (bs & H & _).
  - lia.
  - rewrite H. vm_compute in H. injection H as <-. reflexivity.
Defined.

Lemma batch_list_zero {A : Type} (items : list A) :
  batch_list items 0 = Raise ValueError.
Proof. reflexivity. Qed.

Lemma batch_list_negative {A : Type} (items : list A) (n : Z) :
  n < 0 -> batch_list items n = Ok [].
Proof.
  intros Hn. unfold batch_list, range, range_length.
  destruct (Z.eqb_spec n 0); [lia |].
  destruct (Z.ltb_spec 0 n); [lia |].
  destruct (Z.ltb_spec n 0); [| lia].
  destruct (Z.ltb_spec (len items) 0); [unfold len in *; lia |].
  reflexivity.
Qed.

(** C4 fails as stated: a negative size is accepted; [batch_list] then
    yields nothing and raises nothing. *)
Lemma negative_batch_size_accepted :
  batch_list [1; 2; 3] (-2) = Ok [] /\ ~ raises (batch_list [1; 2; 3] (-2)).
Proof.
  split; [reflexivity |].
  intros [e He]. discriminate He.
Qed.

(** C4, amended.  For a size that is not positive, [batch_list] fails only
    when the size is 0, with the [ValueError] of [range]; for a negative
    size it returns the empty sequence of batches and no error. *)
Theorem batch_list_non_positive {A : Type} (items : list A) (batchSize : Z) :
  batchSize <= 0 ->
  batch_list items batchSize
  = if batchSize =? 0 then Raise ValueError else Ok [].
Proof.
  intros Hn. destruct (Z.eqb_spec batchSize 0) as [-> | Hz].
  - apply batch_list_zero.
  - apply batch_list_negative. lia.
Qed.

Lemma batch_list_non_positive_witness :
  -5 <= 0 /\ batch_list [10; 20; 30] (-5) = Ok [].
Proof.
  split; [lia |].
  apply (batch_list_non_positive [10; 20; 30] (-5)). lia.
Defined.

(** C10.  On a non-empty list, iterating [batch_list] with size 0 raises
    [ValueError], and with a negative size it yields no batch, so every
    item is dropped, and raises nothing. *)
Theorem batch_list_zero_fails_negative_drops
    {A : Type} (items : list A) (batch_size : Z) :
  items <> [] -> batch_size < 0 ->
  batch_list items 0 = Raise ValueError
  /\ batch_list items batch_size = Ok []
  /\ ~ raises (batch_list items batch_size)
  /\ (forall batches, batch_list items batch_size = Ok batches ->
        concat batches = [] /\ concat batches <> items).
Proof.
  intros Hne Hn. rewrite (batch_list_negative items batch_size Hn).
  split; [apply batch_list_zero |].
  split; [reflexivity |].
  split.
  - intros [e He]. discriminate He.
  - intros batches [= <-]. split; [reflexivity |].
    cbn. intros H. apply Hne. symmetry. exact H.
Qed.

Lemma batch_list_zero_fails_negative_drops_witness :
  [1; 2] <> [] /\ -1 < 0 /\
  batch_list [1; 2] 0 = Raise ValueError /\ batch_list [1; 2] (-1) = Ok [].
Proof.
  split; [discriminate | split; [lia |]].
  destruct (batch_list_zero_fails_negative_drops [1; 2] (-1))
    as (H0 & H1 & _).
  - discriminate.
  - lia.
  - split; assumption.
Defined.

(** * Further properties of [calculate_future_locked_amount] *)

(** In the linear part the division rounds the unlocked share down, so
    the locked amount is the remaining share [amount * (end - t) /
    (end - start)] rounded up. *)
Theorem locked_amount_rounds_up
    (amount claimed start_time end_time t : Z) (w : world) :
  start_time < t < end_time ->
  exists locked,
    fst (calculate_future_locked_amount
           (amount, claimed, start_time, end_time) t w) = Ok locked
    /\ amount * (end_time - t) <= locked * (end_time - start_time)
       < amount * (end_time - t) + (end_time - start_time).
Proof.
  intros Ht. rewrite calculate_future_locked_amount_value.
  eexists. split; [reflexivity |].
  unfold locked_value. split_tests; try lia.
  pose proof (Z.mul_div_le (amount * (t - start_time))
                (end_time - start_time) ltac:(lia)).
  pose proof (Z.mul_succ_div_gt (amount * (t - start_time))
                (end_time - start_time) ltac:(lia)).
  nia.
Qed.

Lemma locked_amount_rounds_up_witness :
  1000 < 1001 < 1003 /\
  exists locked,
    fst (calculate_future_locked_amount (10, 0, 1000, 1003) 1001 configured)
    = Ok locked
    /\ 10 * (1003 - 1001) <= locked * (1003 - 1000)
       < 10 * (1003 - 1001) + (1003 - 1000).
Proof.
  split; [lia |].
  apply (locked_amount_rounds_up 10 0 1000 1003 1001 configured). lia.
Defined.

(** A call never changes the logger level and only appends [DEBUG]
    records to what was emitted before: none when [DEBUG] is disabled,
    otherwise two for an empty plan and three for any other. *)
Theorem locked_amount_log_append_only
    (p : VestingPlan) (t : Z) (w : world) :
  let w' := snd (calculate_future_locked_amount p t w) in
  level w' = level w
  /\ exists records,
       emitted w' = emitted w ++ records
       /\ Forall (fun r => fst r = DEBUG) records
       /\ length records
          = if level w <=? DEBUG
            then (if plan_amount p =? 0 then 2%nat else 3%nat)
            else 0%nat.
Proof.
  destruct p as [[[amount claimed] s] e]. cbv zeta.
  unfold_calc. rewrite !log_append. unfold plan_amount.
  destruct (Z.eqb_spec amount 0);
    [| destruct (Z.geb_spec t e); [| destruct (Z.leb_spec t s);
       [| destruct (Z.eqb_spec (e - s) 0); [lia |]]]];
    cbn [fst snd level emitted]; rewrite ?log_append;
    cbn [fst snd level emitted];
    (split; [reflexivity |]); rewrite <- ?app_assoc;
    (eexists; split; [reflexivity |]);
    destruct (level w <=? DEBUG); cbn; (split; [| reflexivity]);
    repeat constructor.
Qed.

(** * Further properties of [batch_list] *)

Lemma slice_map {A B : Type} (f : A -> B) (l : list A) (lo hi : Z) :
  slice (map f l) lo hi = map f (slice l lo hi).
Proof.
  unfold slice, len. rewrite length_map.
  now rewrite skipn_map, firstn_map.
Qed.

(** Splitting commutes with a map over the items, for every batch size,
    the failing and the negative ones included: batching a projection of
    the rows gives the projections of the batches of rows. *)
Theorem batch_list_map {A B : Type} (f : A -> B) (items : list A) (n : Z) :
  batch_list (map f items) n
  = bind (batch_list items n) (fun batches => Ok (map (map f) batches)).
Proof.
  unfold batch_list, len. rewrite length_map.
  destruct (range 0 (Z.of_nat (length items)) n) as [indices | e];
    cbn [bind]; [| reflexivity].
  f_equal. rewrite map_map. apply map_ext. intros i. apply slice_map.
Qed.

(** A list that is not longer than the batch size makes one batch, the
    list itself. *)
Theorem batch_list_single {A : Type} (items : list A) (n : Z) :
  items <> [] -> len items <= n -> batch_list items n = Ok [items].
Proof.
  intros Hne Hn.
  assert (0 < len items) as Hpos
    by (destruct items; [contradiction | unfold len; cbn; lia]).
  rewrite batch_list_chunks by lia.
  replace ((len items + n - 1) / n) with 1.
  - change (Z.to_nat 1) with 1%nat. cbn [seq map]. unfold chunk.
    rewrite Nat.mul_0_l. cbn [skipn]. rewrite firstn_all2; [reflexivity |].
    unfold len in Hn. lia.
  - apply Z.div_unique with (r := len items - 1); lia.
Qed.

Lemma batch_list_single_witness :
  [5; 6; 7] <> [] /\ len [5; 6; 7] <= 150 /\
  batch_list [5; 6; 7] 150 = Ok [[5; 6; 7]].
Proof.
  split; [discriminate | split; [unfold len; cbn; lia |]].
  apply batch_list_single; [discriminate | unfold len; cbn; lia].
Defined.

(** With a positive size every batch holds at least one and at most
    [n] items. *)
Theorem batch_list_sizes {A : Type} (items : list A) (n : Z) :
  0 < n ->
  exists batches,
    batch_list items n = Ok batches
    /\ Forall (fun b => 1 <= len b <= n) batches.
Proof.
  intros Hn. rewrite batch_list_chunks by assumption.
  eexists. split; [reflexivity |].
  destruct (chunk_count_bounds items n Hn) as (_ & _ & Hlt).
  apply Forall_forall. intros b Hb.
  apply in_map_iff in Hb. destruct Hb as (k & <- & Hk).
  apply in_seq in Hk. specialize (Hlt k ltac:(lia)).
  unfold len. rewrite length_chunk. lia.
Qed.

Lemma batch_list_sizes_witness :
  0 < 2 /\
  exists batches,
    batch_list [1; 2; 3] 2 = Ok batches
    /\ Forall (fun b => 1 <= len b <= 2) batches.
Proof.
  split; [lia |]. apply batch_list_sizes. lia.
Defined.

(** * [reset_vesting_plans.py]: [prepare_update_data] *)

Lemma skipn_nth_error {A : Type} (l : list A) (i : nat) (a : A) :
  nth_error l i = Some a -> skipn i l = a :: skipn (S i) l.
Proof.
  revert l. induction i as [| i IH]; intros [| x l] H; try discriminate.
  - now injection H as ->.
  - cbn in H. apply IH in H. exact H.
Qed.

Lemma nth_error_combine {A B : Type} (l : list A) (l' : list B) (i : nat)
    (a : A) (b : B) :
  nth_error l i = Some a -> nth_error l' i = Some b ->
  nth_error (combine l l') i = Some (a, b).
Proof.
  revert l l'. induction i as [| i IH]; intros [| x l] [| y l'] Ha Hb;
    try discriminate; cbn in *.
  - now injection Ha as ->; injection Hb as ->.
  - now apply IH.
Qed.

Lemma index_in_range {A : Type} (l : list A) (i : nat) :
  (i < length l)%nat -> exists a, nth_error l i = Some a /\ index l i = Returned a.
Proof.
  intros H. unfold index.
  destruct (nth_error l i) as [a |] eqn:E.
  - exists a. split; reflexivity.
  - apply nth_error_None in E. lia.
Qed.

Lemma index_out_of_range {A : Type} (l : list A) (i : nat) :
  (length l <= i)%nat -> index l i = Raised IndexError.
Proof.
  intros H. unfold index. apply nth_error_None in H. now rewrite H.
Qed.

(** The sum of the current and the added amount, per row. *)
Lemma prepare_update_data_loop_ok (user_updates : list (address * Z)) :
  forall (i : nat) (current_locked : list Z) (acc : list (address * Z)),
  (i + length user_updates <= length current_locked)%nat ->
  ResetVestingPlans.prepare_update_data_loop i user_updates current_locked acc
  = Returned
      (acc ++ map (fun row => (fst (fst row), snd row + snd (fst row)))
                  (combine user_updates (skipn i current_locked))).
Proof.
  induction user_updates as [| [user add] rest IH]; intros i cl acc H.
  - cbn. now rewrite app_nil_r.
  - cbn [ResetVestingPlans.prepare_update_data_loop].
    destruct (index_in_range cl i) as (c & Hc & ->); [cbn in H; lia |].
    rewrite IH by (cbn in H; lia).
    rewrite (skipn_nth_error _ _ _ Hc). cbn [combine map fst snd].
    now rewrite <- app_assoc.
Qed.

Lemma prepare_update_data_loop_short (user_updates : list (address * Z)) :
  forall (i : nat) (current_locked : list Z) (acc : list (address * Z)),
  (i <= length current_locked < i + length user_updates)%nat ->
  ResetVestingPlans.prepare_update_data_loop i user_updates current_locked acc
  = Raised IndexError.
Proof.
  induction user_updates as [| [user add] rest IH]; intros i cl acc H.
  - cbn in H. lia.
  - cbn [ResetVestingPlans.prepare_update_data_loop].
    destruct (Nat.eq_dec i (length cl)) as [-> | Hne].
    + now rewrite index_out_of_range by lia.
    + destruct (index_in_range cl i) as (c & _ & ->); [lia |].
      apply IH. cbn in H. lia.
Qed.

Lemma map_fst_combine_le {A B : Type} (l : list A) (l' : list B) :
  (length l <= length l')%nat -> map fst (combine l l') = l.
Proof.
  revert l'. induction l as [| a l IH]; intros [| b l'] H; cbn in *;
    try reflexivity; try lia.
  f_equal. apply IH. lia.
Qed.

Lemma map_snd_combine_le {A B : Type} (l : list A) (l' : list B) :
  (length l <= length l')%nat ->
  map snd (combine l l') = firstn (length l) l'.
Proof.
  revert l'. induction l as [| a l IH]; intros [| b l'] H; cbn in *;
    try reflexivity; try lia.
  f_equal. apply IH. lia.
Qed.

Lemma total_app (l l' : list Z) : total (l ++ l') = total l + total l'.
Proof.
  unfold total. induction l as [| x l IH]; cbn; [reflexivity |].
  rewrite IH. lia.
Qed.

Lemma total_map_add {A : Type} (f g : A -> Z) (l : list A) :
  total (map (fun x => f x + g x) l) = total (map f l) + total (map g l).
Proof.
  unfold total. induction l as [| x l IH]; cbn; [reflexivity |].
  rewrite IH. lia.
Qed.

(** When there is a locked amount for every row, the result has the
    users of the rows, in the same order, each with its current locked
    amount plus the amount to add; locked amounts beyond the rows are
    ignored. *)
Theorem prepare_update_data_adds
    (user_updates : list (address * Z)) (current_locked : list Z) :
  (length user_updates <= length current_locked)%nat ->
  exists updated_data,
    ResetVestingPlans.prepare_update_data user_updates current_locked
    = Returned updated_data
    /\ map fst updated_data = map fst user_updates
    /\ forall i user amount_to_add current_amount,
         nth_error user_updates i = Some (user, amount_to_add) ->
         nth_error current_locked i = Some current_amount ->
         nth_error updated_data i
         = Some (user, current_amount + amount_to_add).
Proof.
  intros H. unfold ResetVestingPlans.prepare_update_data.
  rewrite prepare_update_data_loop_ok by (cbn; lia).
  cbn [skipn app]. eexists. split; [reflexivity |]. split.
  - rewrite map_map. cbn [fst].
    rewrite <- (map_map fst fst), map_fst_combine_le by assumption.
    reflexivity.
  - intros i user add cur Hu Hc.
    rewrite nth_error_map, (nth_error_combine _ _ _ _ _ Hu Hc).
    reflexivity.
Qed.

Lemma prepare_update_data_adds_witness :
  (length [(1, 10); (2, 20)]%Z <= length [100; 200; 300]%Z)%nat /\
  ResetVestingPlans.prepare_update_data [(1, 10); (2, 20)] [100; 200; 300]
  = Returned [(1, 110); (2, 220)].
Proof.
  split; [cbn; lia |].
  destruct (prepare_update_data_adds [(1, 10); (2, 20)] [100; 200; 300])
    as (updated & H & _).
  - cbn; lia.
  - rewrite H. vm_compute in H. injection H as <-. reflexivity.
Defined.

(** [prepare_update_data] fails, with [IndexError], exactly when there
    are fewer locked amounts than rows. *)
Theorem prepare_update_data_index_error
    (user_updates : list (address * Z)) (current_locked : list Z) :
  ResetVestingPlans.prepare_update_data user_updates current_locked
  = Raised IndexError
  <-> (length current_locked < length user_updates)%nat.
Proof.
  unfold ResetVestingPlans.prepare_update_data. split.
  - intros H.
    destruct (Nat.le_gt_cases (length user_updates) (length current_locked))
      as [Hle | Hlt]; [| exact Hlt].
    rewrite prepare_update_data_loop_ok in H by (cbn; lia).
    discriminate H.
  - intros H. apply prepare_update_data_loop_short. cbn. lia.
Qed.

(** The new amounts add up to the locked amounts of the rows plus the
    amounts to add. *)
Theorem prepare_update_data_total
    (user_updates : list (address * Z)) (current_locked : list Z) :
  (length user_updates <= length current_locked)%nat ->
  exists updated_data,
    ResetVestingPlans.prepare_update_data user_updates current_locked
    = Returned updated_data
    /\ total (map snd updated_data)
       = total (firstn (length user_updates) current_locked)
         + total (map snd user_updates).
Proof.
  intros H. unfold ResetVestingPlans.prepare_update_data.
  rewrite prepare_update_data_loop_ok by (cbn; lia).
  cbn [skipn app]. eexists. split; [reflexivity |].
  rewrite map_map. cbn [snd].
  rewrite (total_map_add snd (fun row => snd (fst row))).
  rewrite map_snd_combine_le by assumption.
  rewrite <- (map_map fst snd), map_fst_combine_le by assumption.
  reflexivity.
Qed.

Lemma prepare_update_data_total_witness :
  (length [(1, 10); (2, 20)]%Z <= length [100; 200; 300]%Z)%nat /\
  exists updated_data,
    ResetVestingPlans.prepare_update_data [(1, 10); (2, 20)] [100; 200; 300]
    = Returned updated_data
    /\ total (map snd updated_data)
       = total (firstn (length [(1, 10); (2, 20)]) [100; 200; 300])
         + total (map snd [(1, 10); (2, 20)]).
Proof.
  split; [cbn; lia |].
  apply (prepare_update_data_total [(1, 10); (2, 20)] [100; 200; 300]).
  cbn; lia.
Defined.

(** * [reset_vesting_plans.py]: the sending loop of [update_vesting_plans] *)

Section Sending.

Variable send : sender.
Variable updated_data : list (address * Z).
Variables batch_size total_batches : Z.

Let run := ResetVestingPlans.send_batches send updated_data batch_size
             total_batches.

Lemma sent_calls_app (e1 e2 : list effect) :
  sent_calls (e1 ++ e2) = sent_calls e1 ++ sent_calls e2.
Proof. apply flat_map_app. Qed.

Lemma saved_progress_app (e1 e2 : list effect) :
  saved_progress (e1 ++ e2) = saved_progress e1 ++ saved_progress e2.
Proof. apply flat_map_app. Qed.

Lemma sleeps_app (e1 e2 : list effect) :
  sleeps (e1 ++ e2) = sleeps e1 ++ sleeps e2.
Proof. apply flat_map_app. Qed.

Lemma sent_calls_loop (batch_nums : list Z) :
  sent_calls (loop_effects updated_data batch_size total_batches batch_nums)
  = map (batch_call updated_data batch_size) batch_nums.
Proof.
  unfold loop_effects.
  induction batch_nums as [| k rest IH]; [reflexivity |].
  cbn [flat_map map]. rewrite sent_calls_app, IH.
  destruct (k <? total_batches - 1); reflexivity.
Qed.

Lemma saved_progress_loop (batch_nums : list Z) :
  saved_progress
    (loop_effects updated_data batch_size total_batches batch_nums) = [].
Proof.
  unfold loop_effects.
  induction batch_nums as [| k rest IH]; [reflexivity |].
  cbn [flat_map]. rewrite saved_progress_app, IH.
  destruct (k <? total_batches - 1); reflexivity.
Qed.

Lemma sleeps_loop (batch_nums : list Z) :
  sleeps (loop_effects updated_data batch_size total_batches batch_nums)
  = flat_map (fun k => if k <? total_batches - 1 then [2] else [])
      batch_nums.
Proof.
  unfold loop_effects.
  induction batch_nums as [| k rest IH]; [reflexivity |].
  cbn [flat_map]. rewrite sleeps_app, IH.
  destruct (k <? total_batches - 1); reflexivity.
Qed.

(** When every transaction goes through, the loop makes the call of each
    batch in turn, pauses after it unless it is the last, collects the
    hash each call returned and saves nothing. *)
Lemma send_batches_all_sent :
  (forall n users amounts, send n users amounts <> None) ->
  forall (batch_nums : list Z) (hashes : list tx_hash),
  exists new_hashes,
    run batch_nums hashes
    = (loop_effects updated_data batch_size total_batches batch_nums,
       Returned (hashes ++ new_hashes))
    /\ map Some new_hashes
       = map (fun k => answer send (batch_call updated_data batch_size k))
           batch_nums.
Proof.
  intros Hok. subst run.
  induction batch_nums as [| k rest IH]; intros hashes.
  - exists []. rewrite app_nil_r. split; reflexivity.
  - cbn [ResetVestingPlans.send_batches].
    destruct (send (k + 1) _ _) as [h |] eqn:Es; [| now apply Hok in Es].
    destruct (IH (hashes ++ [h])) as (hs & -> & Hhs).
    exists (h :: hs). rewrite <- app_assoc. split; [reflexivity |].
    cbn [map]. rewrite Hhs. f_equal. symmetry. exact Es.
Qed.

(** When the transaction of [k] is the first to fail, the loop has made
    the calls before [k], each followed by its pause if any, then the
    call of [k]; it saves the hashes those calls returned with the number
    [k], and the failure is raised again. *)
Lemma send_batches_first_failure (before after : list Z) (k : Z) :
  (forall n users amounts, In n before -> send (n + 1) users amounts <> None) ->
  (forall users amounts, send (k + 1) users amounts = None) ->
  forall hashes : list tx_hash,
  exists new_hashes,
    run (before ++ k :: after) hashes
    = (loop_effects updated_data batch_size total_batches before
       ++ [call_effect (batch_call updated_data batch_size k);
           Saved (hashes ++ new_hashes) k],
       Raised SendFailure)
    /\ map Some new_hashes
       = map (fun b => answer send (batch_call updated_data batch_size b))
           before.
Proof.
  intros Hok Hfail. subst run.
  induction before as [| b before IH]; intros hashes.
  - exists []. cbn [app ResetVestingPlans.send_batches].
    rewrite Hfail, app_nil_r. split; reflexivity.
  - cbn [app ResetVestingPlans.send_batches].
    destruct (send (b + 1) _ _) as [h |] eqn:Es;
      [| apply Hok in Es; [contradiction | now left]].
    destruct (IH (fun n us am Hin => Hok n us am (or_intror Hin))
                 (hashes ++ [h]))
      as (hs & -> & Hhs).
    exists (h :: hs). rewrite <- app_assoc. split.
    + unfold loop_effects. cbn [flat_map]. rewrite <- !app_assoc.
      reflexivity.
    + cbn [map]. rewrite Hhs. f_equal. symmetry. exact Es.
Qed.

(** Up to the last batch every call is followed by its pause. *)
Lemma loop_effects_with_pauses :
  forall (count start : nat),
  Z.of_nat (start + count) = total_batches ->
  loop_effects updated_data batch_size total_batches
    (map Z.of_nat (seq start count))
  = with_pauses
      (map (batch_call updated_data batch_size)
         (map Z.of_nat (seq start count))).
Proof.
  unfold loop_effects.
  induction count as [| count IH]; intros start H; [reflexivity |].
  cbn [seq map flat_map with_pauses].
  rewrite (IH (S start)) by lia.
  destruct count as [| count'].
  - destruct (Z.ltb_spec (Z.of_nat start) (total_batches - 1)); [lia |].
    reflexivity.
  - destruct (Z.ltb_spec (Z.of_nat start) (total_batches - 1)); [| lia].
    reflexivity.
Qed.

Lemma loop_effects_all_paused (batch_nums : list Z) :
  (forall k, In k batch_nums -> k < total_batches - 1) ->
  loop_effects updated_data batch_size total_batches batch_nums
  = flat_map (fun c => [call_effect c; Slept 2])
      (map (batch_call updated_data batch_size) batch_nums).
Proof.
  unfold loop_effects.
  induction batch_nums as [| k rest IH]; intros H; [reflexivity |].
  cbn [flat_map map]. rewrite IH by (intros j Hj; apply H; now right).
  destruct (Z.ltb_spec k (total_batches - 1)); [reflexivity |].
  specialize (H k (or_introl eq_refl)). lia.
Qed.

(** Whatever the outcome of the transactions, the calls made are the
    calls of an initial segment of the batches. *)
Lemma send_batches_calls_prefix (batch_nums : list Z) :
  forall hashes : list tx_hash,
  exists n,
    sent_calls (fst (run batch_nums hashes))
    = firstn n (map (batch_call updated_data batch_size) batch_nums).
Proof.
  subst run. induction batch_nums as [| k rest IH]; intros hashes.
  - exists 0%nat. reflexivity.
  - cbn [ResetVestingPlans.send_batches].
    destruct (send (k + 1) _ _) as [h |].
    + destruct (IH (hashes ++ [h])) as (n & Hn).
      destruct (ResetVestingPlans.send_batches _ _ _ _ rest (hashes ++ [h]))
        as [effs r].
      exists (S n). cbn [fst] in *.
      change (sent_calls (?e :: ?l)) with (sent_calls [e] ++ sent_calls l).
      rewrite sent_calls_app, Hn.
      destruct (k <? total_batches - 1); reflexivity.
    + exists 1%nat. reflexivity.
Qed.

End Sending.

Lemma range_from_zero (n : Z) :
  range 0 n 1 = Ok (map Z.of_nat (seq 0 (Z.to_nat n))).
Proof.
  unfold range, range_length. cbn [Z.eqb Z.ltb Z.compare andb].
  f_equal.
  replace (Z.to_nat (if 0 <? n then 1 + (n - 1 - 0) / 1 else 0))
    with (Z.to_nat n)
    by (destruct (Z.ltb_spec 0 n); rewrite ?Z.div_1_r; lia).
  apply map_ext. intros k. lia.
Qed.

(** The slices of the loop of [update_vesting_plans], put end to end,
    are the data. *)
Lemma reset_batches_concat {A : Type} (data : list A) (batch_size : Z) :
  0 < batch_size ->
  concat (map (fun k => slice data (k * batch_size)
                          (Z.min ((k + 1) * batch_size) (len data)))
              (map Z.of_nat
                 (seq 0 (Z.to_nat ((len data + batch_size - 1) / batch_size)))))
  = data.
Proof.
  intros Hb.
  pose proof (update_vesting_plans_batches_chunks data batch_size Hb) as E.
  unfold update_vesting_plans_batches, floordiv in E.
  destruct (Z.eqb_spec batch_size 0); [lia |].
  cbn [bind] in E. rewrite range_from_zero in E. cbn [bind] in E.
  injection E as E. rewrite E, concat_chunks.
  apply firstn_all2.
  apply (chunk_count_bounds data batch_size Hb).
Qed.

Lemma batch_call_numbers (data : list (address * Z)) (batch_size : Z)
    (start count : nat) :
  map (fun c => fst (fst c))
      (map (batch_call data batch_size) (map Z.of_nat (seq start count)))
  = map Z.of_nat (seq (S start) count).
Proof.
  rewrite !map_map. cbn [batch_call fst].
  rewrite <- seq_shift, map_map. apply map_ext. intros k. lia.
Qed.

Lemma prepare_update_data_length
    (user_updates updated_data : list (address * Z)) (current_locked : list Z) :
  ResetVestingPlans.prepare_update_data user_updates current_locked
  = Returned updated_data ->
  length updated_data = length user_updates
  /\ (length user_updates <= length current_locked)%nat.
Proof.
  unfold ResetVestingPlans.prepare_update_data. intros H.
  destruct (Nat.le_gt_cases (length user_updates) (length current_locked))
    as [Hle | Hlt].
  - rewrite prepare_update_data_loop_ok in H by (cbn; lia).
    injection H as <-. cbn [app skipn].
    rewrite length_map, length_combine. lia.
  - rewrite prepare_update_data_loop_short in H by (cbn; lia).
    discriminate H.
Qed.

Lemma combine_fst_snd {A B : Type} (l : list (A * B)) :
  combine (map fst l) (map snd l) = l.
Proof.
  induction l as [| [a b] l IH]; cbn; [reflexivity |]. now rewrite IH.
Qed.

Lemma map_Some_length {A B : Type} (l : list A) (l' : list B)
    (f : B -> option A) :
  map Some l = map f l' -> length l = length l'.
Proof.
  intros H. apply (f_equal (@length (option A))) in H.
  now rewrite !length_map in H.
Qed.

(** When every transaction goes through and the batch size is positive,
    [update_vesting_plans] sends every prepared row exactly once, in
    order, in batches numbered from 1, the users and the amounts of a
    call being those of the same rows; it pauses after every call but
    the last and finally saves the hashes the calls returned, one per
    batch, with the number of batches. *)
Theorem update_vesting_plans_sends_every_row
    (send : sender) (user_updates : list (address * Z))
    (current_locked : list Z) (batch_size : Z) :
  (forall n users amounts, send n users amounts <> None) ->
  0 < batch_size ->
  (length user_updates <= length current_locked)%nat ->
  exists effects updated_data hashes,
    ResetVestingPlans.prepare_update_data user_updates current_locked
    = Returned updated_data
    /\ ResetVestingPlans.update_vesting_plans send user_updates
         current_locked batch_size = (effects, Returned tt)
    /\ concat (map (fun c => snd (fst c)) (sent_calls effects))
       = map fst updated_data
    /\ concat (map snd (sent_calls effects)) = map snd updated_data
    /\ map (fun c => fst (fst c)) (sent_calls effects)
       = map Z.of_nat (seq 1 (length hashes))
    /\ saved_progress effects
       = [(hashes, (len user_updates + batch_size - 1) / batch_size)]
    /\ len hashes = (len user_updates + batch_size - 1) / batch_size
    /\ Forall (fun c => length (snd (fst c)) = length (snd c))
         (sent_calls effects)
    /\ concat (map (fun c => combine (snd (fst c)) (snd c))
                 (sent_calls effects))
       = updated_data
    /\ map Some hashes = map (answer send) (sent_calls effects)
    /\ effects
       = with_pauses (sent_calls effects)
         ++ [Saved hashes ((len user_updates + batch_size - 1) / batch_size)].
Proof.
  intros Hok Hb Hlen.
  unfold ResetVestingPlans.update_vesting_plans.
  destruct (ResetVestingPlans.prepare_update_data user_updates current_locked)
    as [updated | e] eqn:Hprep.
  2:{ unfold ResetVestingPlans.prepare_update_data in Hprep.
      rewrite prepare_update_data_loop_ok in Hprep by (cbn; lia).
      discriminate Hprep. }
  destruct (prepare_update_data_length _ _ _ Hprep) as [Hl _].
  assert (len updated = len user_updates) as Hl' by (unfold len; lia).
  unfold floordiv. destruct (Z.eqb_spec batch_size 0) as [Hz | Hnz]; [lia |].
  rewrite range_from_zero, Hl'.
  set (total_batches := (len user_updates + batch_size - 1) / batch_size).
  assert (0 <= total_batches) as Hnonneg
    by (apply Z.div_pos; unfold len; lia).
  set (batch_nums := map Z.of_nat (seq 0 (Z.to_nat total_batches))).
  destruct (send_batches_all_sent send updated batch_size total_batches Hok
              batch_nums [])
    as (hs & E & Hanswers).
  rewrite E. cbn [app].
  assert (length hs = Z.to_nat total_batches) as Hhs.
  { apply map_Some_length in Hanswers. subst batch_nums.
    now rewrite length_map, length_seq in Hanswers. }
  exists (loop_effects updated batch_size total_batches batch_nums
          ++ [Saved hs total_batches]), updated, hs.
  rewrite sent_calls_app, saved_progress_app, sent_calls_loop,
    saved_progress_loop.
  cbn [sent_calls saved_progress flat_map app]. rewrite app_nil_r.
  assert (concat (map (fun k => slice updated (k * batch_size)
                                  (Z.min ((k + 1) * batch_size) (len updated)))
                      batch_nums) = updated) as Hcat.
  { subst batch_nums total_batches. rewrite <- Hl'.
    apply reset_batches_concat. exact Hb. }
  split; [reflexivity |]. split; [reflexivity |].
  repeat match goal with |- _ /\ _ => split end.
  - rewrite <- Hcat at 2. rewrite concat_map, !map_map. reflexivity.
  - rewrite <- Hcat at 2. rewrite concat_map, !map_map. reflexivity.
  - subst batch_nums. rewrite batch_call_numbers, Hhs. reflexivity.
  - reflexivity.
  - unfold len. rewrite Hhs. lia.
  - apply Forall_forall. intros c Hc.
    apply in_map_iff in Hc. destruct Hc as (k & <- & _).
    unfold batch_call. cbn [fst snd]. now rewrite !length_map.
  - rewrite <- Hcat at 2. rewrite map_map. f_equal.
    apply map_ext. intros k. unfold batch_call. cbn [fst snd].
    apply combine_fst_snd.
  - rewrite Hanswers, map_map. reflexivity.
  - f_equal. subst batch_nums.
    apply loop_effects_with_pauses. lia.
Qed.

Lemma update_vesting_plans_sends_every_row_witness :
  (forall n users amounts,
     (fun n (_ : list address) (_ : list Z) => Some (1000 + n)) n users amounts
     <> None)
  /\ 0 < 2
  /\ (length [(1, 10); (2, 20); (3, 30)]%Z <= length [100; 200; 300]%Z)%nat
  /\ ResetVestingPlans.update_vesting_plans
       (fun n _ _ => Some (1000 + n)) [(1, 10); (2, 20); (3, 30)]
       [100; 200; 300] 2
     = ([Sent 1 [1; 2] [110; 220]; Slept 2; Sent 2 [3] [330];
         Saved [1001; 1002] 2],
        Returned tt).
Proof.
  split; [discriminate | split; [lia | split; [cbn; lia |]]].
  destruct (update_vesting_plans_sends_every_row
              (fun n _ _ => Some (1000 + n)) [(1, 10); (2, 20); (3, 30)]
              [100; 200; 300] 2)
    as (effects & updated & hashes & _ & Hu & _);
    [discriminate | lia | cbn; lia |].
  rewrite Hu. vm_compute in Hu. injection Hu as <-. reflexivity.
Defined.

(** When the transactions of batches 1 to [j] go through and that of
    batch [j + 1] fails, no later batch is sent: the calls made are those
    of batches 1 to [j + 1], each of the first [j] followed by its pause;
    then the progress is saved, with the [j] hashes those calls returned
    and the number [j], and the failure is raised again. *)
Theorem update_vesting_plans_stops_at_failure
    (send : sender) (user_updates : list (address * Z))
    (current_locked : list Z) (batch_size : Z) (j : nat) :
  batch_size <> 0 ->
  (length user_updates <= length current_locked)%nat ->
  Z.of_nat j < (len user_updates + batch_size - 1) / batch_size ->
  (forall n users amounts,
     1 <= n <= Z.of_nat j -> send n users amounts <> None) ->
  (forall users amounts, send (Z.of_nat j + 1) users amounts = None) ->
  exists effects hashes updated_data,
    ResetVestingPlans.update_vesting_plans send user_updates
      current_locked batch_size = (effects, Raised SendFailure)
    /\ map (fun c => fst (fst c)) (sent_calls effects)
       = map Z.of_nat (seq 1 (S j))
    /\ saved_progress effects = [(hashes, Z.of_nat j)]
    /\ length hashes = j
    /\ ResetVestingPlans.prepare_update_data user_updates current_locked
       = Returned updated_data
    /\ sent_calls effects
       = map (batch_call updated_data batch_size)
           (map Z.of_nat (seq 0 (S j)))
    /\ map Some hashes = map (answer send) (firstn j (sent_calls effects))
    /\ effects
       = flat_map (fun c => [call_effect c; Slept 2])
           (firstn j (sent_calls effects))
         ++ [call_effect (batch_call updated_data batch_size (Z.of_nat j));
             Saved hashes (Z.of_nat j)].
Proof.
  intros Hb Hlen Hj Hok Hfail.
  unfold ResetVestingPlans.update_vesting_plans.
  destruct (ResetVestingPlans.prepare_update_data user_updates current_locked)
    as [updated | e] eqn:Hprep.
  2:{ unfold ResetVestingPlans.prepare_update_data in Hprep.
      rewrite prepare_update_data_loop_ok in Hprep by (cbn; lia).
      discriminate Hprep. }
  destruct (prepare_update_data_length _ _ _ Hprep) as [Hl _].
  assert (len updated = len user_updates) as Hl' by (unfold len; lia).
  unfold floordiv. destruct (Z.eqb_spec batch_size 0) as [Hz | Hnz]; [lia |].
  rewrite range_from_zero, Hl'.
  set (total_batches := (len user_updates + batch_size - 1) / batch_size)
    in *.
  replace (Z.to_nat total_batches)
    with (j + S (Z.to_nat total_batches - S j))%nat by lia.
  rewrite seq_app, map_app. cbn [seq map Nat.add].
  set (before := map Z.of_nat (seq 0 j)).
  destruct (send_batches_first_failure send updated batch_size total_batches
              before
              (map Z.of_nat (seq (S j) (Z.to_nat total_batches - S j)))
              (Z.of_nat j))
    with (hashes := @nil tx_hash)
    as (hs & E & Hanswers).
  { intros m us am Hin. apply Hok.
    apply in_map_iff in Hin. destruct Hin as (k & <- & Hk).
    apply in_seq in Hk. lia. }
  { exact Hfail. }
  rewrite E. cbn [app].
  assert (length hs = j) as Hhs.
  { apply map_Some_length in Hanswers. subst before.
    now rewrite length_map, length_seq in Hanswers. }
  assert (sent_calls
            (loop_effects updated batch_size total_batches before
             ++ [call_effect (batch_call updated batch_size (Z.of_nat j));
                 Saved hs (Z.of_nat j)])
          = map (batch_call updated batch_size) before
            ++ [batch_call updated batch_size (Z.of_nat j)]) as Hcalls.
  { rewrite sent_calls_app, sent_calls_loop. reflexivity. }
  assert (firstn j (map (batch_call updated batch_size) before
                    ++ [batch_call updated batch_size (Z.of_nat j)])
          = map (batch_call updated batch_size) before) as Hfirst.
  { rewrite firstn_app, firstn_all2
      by (subst before; rewrite !length_map, length_seq; lia).
    subst before. rewrite !length_map, length_seq, Nat.sub_diag.
    cbn [firstn]. apply app_nil_r. }
  exists (loop_effects updated batch_size total_batches before
          ++ [call_effect (batch_call updated batch_size (Z.of_nat j));
              Saved hs (Z.of_nat j)]), hs, updated.
  rewrite Hcalls, Hfirst.
  assert (map (batch_call updated batch_size) before
          ++ [batch_call updated batch_size (Z.of_nat j)]
          = map (batch_call updated batch_size) (map Z.of_nat (seq 0 (S j))))
    as Hall by (subst before; rewrite seq_S, !map_app; reflexivity).
  split; [reflexivity |].
  repeat match goal with |- _ /\ _ => split end.
  - rewrite Hall. apply batch_call_numbers.
  - rewrite saved_progress_app, saved_progress_loop. reflexivity.
  - exact Hhs.
  - reflexivity.
  - exact Hall.
  - rewrite Hanswers, map_map. reflexivity.
  - f_equal. apply loop_effects_all_paused.
    intros k Hk. subst before.
    apply in_map_iff in Hk. destruct Hk as (i & <- & Hi).
    apply in_seq in Hi. lia.
Qed.

Lemma update_vesting_plans_stops_at_failure_witness :
  1 <> 0
  /\ (length [(1, 10); (2, 20); (3, 30)]%Z <= length [100; 200; 300]%Z)%nat
  /\ ResetVestingPlans.update_vesting_plans
       (fun n _ _ => if n =? 2 then None else Some (1000 + n))
       [(1, 10); (2, 20); (3, 30)] [100; 200; 300] 1
     = ([Sent 1 [1] [110]; Slept 2; Sent 2 [2] [220]; Saved [1001] 1],
        Raised SendFailure).
Proof.
  split; [lia | split; [cbn; lia |]].
  destruct (update_vesting_plans_stops_at_failure
              (fun n _ _ => if n =? 2 then None else Some (1000 + n))
              [(1, 10); (2, 20); (3, 30)] [100; 200; 300] 1 1)
    as (effects & hashes & updated & Hu & _).
  - lia.
  - cbn; lia.
  - vm_compute. reflexivity.
  - intros n us am Hn. replace n with 1 by lia. discriminate.
  - reflexivity.
  - rewrite Hu. vm_compute in Hu. injection Hu as <-. reflexivity.
Defined.

(** A batch size of 0 stops [update_vesting_plans] at the computation of
    the number of batches, with [ZeroDivisionError]: nothing is sent and
    no progress is saved. *)
Theorem update_vesting_plans_zero_batch_size
    (send : sender) (user_updates : list (address * Z))
    (current_locked : list Z) :
  (length user_updates <= length current_locked)%nat ->
  ResetVestingPlans.update_vesting_plans send user_updates current_locked 0
  = ([], Raised (Builtin ZeroDivisionError)).
Proof.
  intros Hlen. unfold ResetVestingPlans.update_vesting_plans,
    ResetVestingPlans.prepare_update_data.
  rewrite prepare_update_data_loop_ok by (cbn; lia). reflexivity.
Qed.

Lemma update_vesting_plans_zero_batch_size_witness :
  (length [(1, 10)]%Z <= length [100]%Z)%nat /\
  ResetVestingPlans.update_vesting_plans (fun n _ _ => Some n) [(1, 10)]
    [100] 0 = ([], Raised (Builtin ZeroDivisionError)).
Proof.
  split; [cbn; lia |].
  apply update_vesting_plans_zero_batch_size. cbn; lia.
Defined.

Lemma Forall_firstn_of {A : Type} (P : A -> Prop) (n : nat) (l : list A) :
  Forall P l -> Forall P (firstn n l).
Proof.
  intros H. revert n. induction H as [| x l Hx _ IH]; intros [| n]; cbn;
    constructor; auto.
Qed.

(** With a negative size, a positive number of batches needs at most one
    row. *)
Lemma negative_size_batches (L batch_size : Z) :
  batch_size < 0 -> 1 <= (L + batch_size - 1) / batch_size -> L <= 1.
Proof.
  intros Hb Hq.
  pose proof (Z.div_mod (L + batch_size - 1) batch_size ltac:(lia)).
  pose proof (Z.mod_neg_bound (L + batch_size - 1) batch_size Hb).
  nia.
Qed.

Lemma negative_size_slice_empty {A : Type} (data : list A)
    (batch_size k : Z) :
  batch_size < 0 -> len data <= 1 -> 0 <= k ->
  slice data (k * batch_size)
    (Z.min ((k + 1) * batch_size) (len data)) = [].
Proof.
  intros Hb HL Hk. unfold slice, clamp_index.
  assert (0 <= len data) by (unfold len; lia).
  assert ((k + 1) * batch_size <= -1) by nia.
  rewrite (Z.min_l ((k + 1) * batch_size)) by lia.
  destruct (Z.ltb_spec ((k + 1) * batch_size) 0); [| lia].
  rewrite (Z.max_r ((k + 1) * batch_size + len data)) by lia.
  replace (Z.to_nat _) with 0%nat; [reflexivity |].
  destruct (Z.ltb_spec (k * batch_size) 0); lia.
Qed.

(** With a negative batch size no row ever reaches a transaction:
    every call that is made carries empty lists of users and amounts,
    whatever the transactions answer. *)
Theorem update_vesting_plans_negative_size_sends_no_row
    (send : sender) (user_updates : list (address * Z))
    (current_locked : list Z) (batch_size : Z) :
  batch_size < 0 ->
  Forall (fun c => snd (fst c) = [] /\ snd c = [])
    (sent_calls
       (fst (ResetVestingPlans.update_vesting_plans send user_updates
               current_locked batch_size))).
Proof.
  intros Hb. unfold ResetVestingPlans.update_vesting_plans.
  destruct (ResetVestingPlans.prepare_update_data user_updates current_locked)
    as [updated | e]; [| constructor].
  unfold floordiv. destruct (Z.eqb_spec batch_size 0) as [Hz | Hnz]; [lia |].
  rewrite range_from_zero.
  set (total_batches := (len updated + batch_size - 1) / batch_size).
  destruct (send_batches_calls_prefix send updated batch_size total_batches
              (map Z.of_nat (seq 0 (Z.to_nat total_batches))) [])
    as (n & Hn).
  assert (Forall (fun c => snd (fst c) = [] /\ snd c = [])
            (map (batch_call updated batch_size)
               (map Z.of_nat (seq 0 (Z.to_nat total_batches))))) as Hall.
  { apply Forall_forall. intros c Hc.
    apply in_map_iff in Hc. destruct Hc as (k & <- & Hk).
    apply in_map_iff in Hk. destruct Hk as (i & <- & Hi).
    apply in_seq in Hi.
    assert (len updated <= 1) as HL
      by (apply (negative_size_batches _ batch_size Hb);
          fold total_batches; lia).
    unfold batch_call. cbn [fst snd].
    rewrite negative_size_slice_empty by lia. split; reflexivity. }
  destruct (ResetVestingPlans.send_batches _ _ _ _ _ _) as [effs [hs | e]];
    cbn [fst] in *; rewrite ?sent_calls_app, ?app_nil_r, Hn;
    apply Forall_firstn_of, Hall.
Qed.

Lemma update_vesting_plans_negative_size_sends_no_row_witness :
  -3 < 0 /\
  sent_calls
    (fst (ResetVestingPlans.update_vesting_plans (fun n _ _ => Some n)
            [(1, 10)] [5] (-3)))
  = [(1, [], [])].
Proof.
  split; [lia |].
  pose proof (update_vesting_plans_negative_size_sends_no_row
                (fun n _ _ => Some n) [(1, 10)] [5] (-3) ltac:(lia)) as H.
  vm_compute in H |- *. reflexivity.
Defined.

(** With a negative batch size and two rows or more no transaction is
    sent at all, and the function still ends normally, saving an empty
    list of hashes with a number of batches that is not positive. *)
Theorem update_vesting_plans_negative_size_sends_nothing
    (send : sender) (user_updates : list (address * Z))
    (current_locked : list Z) (batch_size : Z) :
  batch_size < 0 ->
  (2 <= length user_updates <= length current_locked)%nat ->
  ResetVestingPlans.update_vesting_plans send user_updates current_locked
    batch_size
  = ([Saved [] ((len user_updates + batch_size - 1) / batch_size)],
     Returned tt)
  /\ (len user_updates + batch_size - 1) / batch_size <= 0.
Proof.
  intros Hb Hlen.
  assert ((len user_updates + batch_size - 1) / batch_size <= 0) as Hq.
  { destruct (Z_le_gt_dec ((len user_updates + batch_size - 1) / batch_size) 0)
      as [H | H]; [exact H |].
    pose proof (negative_size_batches (len user_updates) batch_size Hb
                  ltac:(lia)).
    unfold len in *. lia. }
  split; [| exact Hq].
  unfold ResetVestingPlans.update_vesting_plans.
  destruct (ResetVestingPlans.prepare_update_data user_updates current_locked)
    as [updated | e] eqn:Hprep.
  2:{ unfold ResetVestingPlans.prepare_update_data in Hprep.
      rewrite prepare_update_data_loop_ok in Hprep by (cbn; lia).
      discriminate Hprep. }
  destruct (prepare_update_data_length _ _ _ Hprep) as [Hl _].
  assert (len updated = len user_updates) as -> by (unfold len; lia).
  unfold floordiv. destruct (Z.eqb_spec batch_size 0) as [Hz | Hnz]; [lia |].
  rewrite range_from_zero.
  replace (Z.to_nat _) with 0%nat by lia.
  reflexivity.
Qed.

Lemma update_vesting_plans_negative_size_sends_nothing_witness :
  -1 < 0
  /\ (2 <= length [(1, 10); (2, 20)]%Z <= length [100; 200]%Z)%nat
  /\ ResetVestingPlans.update_vesting_plans (fun n _ _ => Some n)
       [(1, 10); (2, 20)] [100; 200] (-1)
     = ([Saved [] 0], Returned tt).
Proof.
  split; [lia | split; [cbn; lia |]].
  exact (proj1 (update_vesting_plans_negative_size_sends_nothing
                  (fun n _ _ => Some n) [(1, 10); (2, 20)] [100; 200] (-1)
                  ltac:(lia) ltac:(cbn; lia))).
Defined.

Lemma pauses_before_last (t : Z) (c : nat) :
  Z.of_nat c <= t ->
  flat_map (fun k => if k <? t then [2] else []) (map Z.of_nat (seq 0 c))
  = repeat 2 c.
Proof.
  induction c as [| c IH]; intros H; [reflexivity |].
  rewrite seq_S, map_app, flat_map_app, IH by lia.
  cbn [Nat.add map flat_map app].
  destruct (Z.ltb_spec (Z.of_nat c) t); [| lia].
  rewrite app_nil_r. change [2] with (repeat 2 1).
  rewrite <- repeat_app. f_equal. lia.
Qed.

(** When every transaction goes through, the loop sleeps 2 seconds after
    every batch but the last, and not before the first or after the
    last: the effects are the calls in order with a pause after each one
    but the last, followed by the saving of the progress; there is one
    pause fewer than there are batches. *)
Theorem update_vesting_plans_pauses
    (send : sender) (user_updates : list (address * Z))
    (current_locked : list Z) (batch_size : Z) :
  (forall n users amounts, send n users amounts <> None) ->
  0 < batch_size ->
  (length user_updates <= length current_locked)%nat ->
  let effects :=
    fst (ResetVestingPlans.update_vesting_plans send user_updates
           current_locked batch_size) in
  sleeps effects = repeat 2 (length (sent_calls effects) - 1)
  /\ len (sent_calls effects)
     = (len user_updates + batch_size - 1) / batch_size
  /\ exists hashes,
       effects
       = with_pauses (sent_calls effects)
         ++ [Saved hashes
               ((len user_updates + batch_size - 1) / batch_size)].
Proof.
  intros Hok Hb Hlen. cbv zeta.
  unfold ResetVestingPlans.update_vesting_plans.
  destruct (ResetVestingPlans.prepare_update_data user_updates current_locked)
    as [updated | e] eqn:Hprep.
  2:{ unfold ResetVestingPlans.prepare_update_data in Hprep.
      rewrite prepare_update_data_loop_ok in Hprep by (cbn; lia).
      discriminate Hprep. }
  destruct (prepare_update_data_length _ _ _ Hprep) as [Hl _].
  assert (len updated = len user_updates) as -> by (unfold len; lia).
  unfold floordiv. destruct (Z.eqb_spec batch_size 0) as [Hz | Hnz]; [lia |].
  rewrite range_from_zero.
  set (total_batches := (len user_updates + batch_size - 1) / batch_size).
  assert (0 <= total_batches) as Hnonneg
    by (apply Z.div_pos; unfold len; lia).
  destruct (send_batches_all_sent send updated batch_size total_batches Hok
              (map Z.of_nat (seq 0 (Z.to_nat total_batches))) [])
    as (hs & E & _).
  rewrite E. cbn [fst app].
  rewrite sent_calls_app, sleeps_app, sent_calls_loop, sleeps_loop.
  cbn [sent_calls sleeps flat_map].
  rewrite !app_nil_r. unfold len.
  rewrite !length_map, length_seq. split; [| split; [lia |]].
  - destruct (Z.to_nat total_batches) as [| c] eqn:Ec; [reflexivity |].
    rewrite seq_S, map_app, flat_map_app, pauses_before_last by lia.
    cbn [Nat.add map flat_map app].
    destruct (Z.ltb_spec (Z.of_nat c) (total_batches - 1)); [lia |].
    rewrite !app_nil_r. f_equal. lia.
  - exists hs. f_equal. apply loop_effects_with_pauses. lia.
Qed.

Lemma update_vesting_plans_pauses_witness :
  (forall n users amounts,
     (fun (n : Z) (_ : list address) (_ : list Z) => Some n) n users amounts
     <> None)
  /\ 0 < 1
  /\ (length [(1, 10); (2, 20); (3, 30)]%Z <= length [100; 200; 300]%Z)%nat
  /\ sleeps
       (fst (ResetVestingPlans.update_vesting_plans (fun n _ _ => Some n)
               [(1, 10); (2, 20); (3, 30)] [100; 200; 300] 1))
     = [2; 2].
Proof.
  split; [discriminate | split; [lia | split; [cbn; lia |]]].
  destruct (update_vesting_plans_pauses (fun n _ _ => Some n)
              [(1, 10); (2, 20); (3, 30)] [100; 200; 300] 1)
    as [H _]; [discriminate | lia | cbn; lia |].
  rewrite H. reflexivity.
Defined.

(** * [future_reset_vesting_plans.py]: the processing of [main] *)

From Stdlib Require Import Permutation.

Import FutureReset.

Lemma calculate_future_locked_amount_run (p : VestingPlan) (t : Z) (w : world) :
  exists w',
    calculate_future_locked_amount p t w = (Ok (locked_value p t), w').
Proof.
  pose proof (calculate_future_locked_amount_value p t w) as H.
  destruct (calculate_future_locked_amount p t w) as [r w'].
  cbn [fst] in H. subst r. exists w'. reflexivity.
Qed.

Lemma identify_no_vesting_ok (users_data : list (address * Z)) :
  forall (i : nat) (vesting_results : list VestingPlan) (acc : list address),
  (i + length users_data <= length vesting_results)%nat ->
  identify_no_vesting i users_data vesting_results acc
  = Returned (acc ++ map row_user
                       (filter is_new
                          (combine users_data (skipn i vesting_results)))).
Proof.
  induction users_data as [| [user csv] rest IH]; intros i vr acc H.
  - cbn. now rewrite app_nil_r.
  - cbn [identify_no_vesting].
    destruct (index_in_range vr i) as (plan & Hp & ->); [cbn in H; lia |].
    rewrite IH by (cbn in H; lia).
    rewrite (skipn_nth_error _ _ _ Hp). cbn [combine filter].
    unfold is_new at 2. cbn [snd].
    destruct (plan_amount plan =? 0); [| reflexivity].
    cbn [map]. now rewrite <- app_assoc.
Qed.


(** With a plan for every row the processing loop never reaches its
    handler: it is the fold of [process_row] over the rows. *)
Lemma process_results_fold (pending_amounts : dict)
    (users_data : list (address * Z)) :
  forall (i : nat) (vesting_results : list VestingPlan) (s : summary)
         (w : world),
  (i + length users_data <= length vesting_results)%nat ->
  exists w',
    process_results i users_data vesting_results pending_amounts s w
    = (Returned
         (fold_left (process_row pending_amounts)
            (combine users_data (skipn i vesting_results)) s),
       w').
Proof.
  induction users_data as [| [user csv] rest IH]; intros i vr s w H.
  - exists w. reflexivity.
  - cbn [process_results].
    destruct (index_in_range vr i) as (plan & Hp & ->); [cbn in H; lia |].
    rewrite (skipn_nth_error _ _ _ Hp). cbn [combine fold_left].
    unfold process_row at 2.
    destruct (plan_amount plan =? 0).
    + apply IH. cbn in H. lia.
    + destruct (calculate_future_locked_amount_run plan EXECUTION_TIMESTAMP w)
        as (w1 & ->).
      apply IH. cbn in H. lia.
Qed.

(** The state after the rows, field by field. *)
Lemma process_rows_closed (pending_amounts : dict)
    (rows : list (address * Z * VestingPlan)) :
  forall s : summary,
  fold_left (process_row pending_amounts) rows s
  = mkSummary
      (setup_users s ++ map row_user (filter is_new rows))
      (setup_amounts s
       ++ map (fun r => row_amount r + dict_get pending_amounts (row_user r) 0)
              (filter is_new rows))
      (reset_users s ++ map row_user (filter (fun r => negb (is_new r)) rows))
      (reset_amounts s
       ++ map (fun r => locked_value (snd r) EXECUTION_TIMESTAMP + row_amount r)
              (filter (fun r => negb (is_new r)) rows))
      (existing_plans_count s
       + len (filter (fun r => negb (is_new r)) rows))
      (new_plans_count s + len (filter is_new rows))
      (total_new_vested_amount s + total (map row_amount rows))
      (total_setup_new_amount s + total (map row_amount (filter is_new rows)))
      (total_reset_new_amount s
       + total (map row_amount (filter (fun r => negb (is_new r)) rows)))
      (total_pending_amount s
       + total (map (fun r => dict_get pending_amounts (row_user r) 0)
                    (filter is_new rows))).
Proof.
  induction rows as [| [[user csv] plan] rows IH]; intros s.
  - cbn. unfold len. cbn. rewrite !app_nil_r, !Z.add_0_r.
    destruct s; reflexivity.
  - cbn [fold_left]. rewrite IH. clear IH.
    unfold process_row, is_new, row_user, row_amount, len, total.
    cbn [filter snd fst].
    destruct (plan_amount plan =? 0); cbn [negb map length fold_right fst snd];
      f_equal; cbn [setup_users setup_amounts reset_users reset_amounts
        existing_plans_count new_plans_count total_new_vested_amount
        total_setup_new_amount total_reset_new_amount total_pending_amount
        add_new_vested record_setup record_reset count_existing];
      rewrite <- ?app_assoc; try reflexivity; try lia.
Qed.

Lemma process_users_closed (users_data : list (address * Z))
    (vesting_results : list VestingPlan) (pending_call : option (list Z))
    (w : world) :
  (length users_data <= length vesting_results)%nat ->
  exists w',
    process_users users_data vesting_results pending_call w
    = (Returned
         (fold_left
            (process_row
               (fetch_pending_amounts
                  (map row_user
                     (filter is_new (combine users_data vesting_results)))
                  pending_call))
            (combine users_data vesting_results) initial),
       w').
Proof.
  intros H. unfold process_users.
  rewrite identify_no_vesting_ok by (cbn; lia). cbn [app skipn].
  destruct (process_results_fold
              (fetch_pending_amounts
                 (map row_user
                    (filter is_new (combine users_data vesting_results)))
                 pending_call)
              users_data 0 vesting_results initial w)
    as (w' & E); [cbn; lia |].
  exists w'. exact E.
Qed.

Lemma filter_split_permutation {A : Type} (f : A -> bool) (l : list A) :
  Permutation (filter f l ++ filter (fun x => negb (f x)) l) l.
Proof.
  induction l as [| x l IH]; cbn; [constructor |].
  destruct (f x); cbn.
  - now constructor.
  - symmetry. apply Permutation_cons_app. now symmetry.
Qed.

Lemma filter_split_length {A : Type} (f : A -> bool) (l : list A) :
  (length (filter f l) + length (filter (fun x => negb (f x)) l)
   = length l)%nat.
Proof.
  induction l as [| x l IH]; cbn; [reflexivity |].
  destruct (f x); cbn; lia.
Qed.

Lemma total_filter_split {A : Type} (f : A -> bool) (g : A -> Z)
    (l : list A) :
  total (map g (filter f l)) + total (map g (filter (fun x => negb (f x)) l))
  = total (map g l).
Proof.
  unfold total. induction l as [| x l IH]; cbn; [reflexivity |].
  destruct (f x); cbn; lia.
Qed.

Ltac process_users_state H s :=
  match goal with
  | |- context [process_users ?ud ?vr ?pc ?w] =>
      let w' := fresh "w'" in
      let E := fresh "E" in
      destruct (process_users_closed ud vr pc w H) as (w' & E);
      rewrite E; cbn [fst];
      rewrite process_rows_closed;
      eexists; split; [reflexivity |];
      cbn [setup_users setup_amounts reset_users reset_amounts
        existing_plans_count new_plans_count total_new_vested_amount
        total_setup_new_amount total_reset_new_amount total_pending_amount
        initial app]
  end.

(** When a plan was fetched for every CSV row, the processing of [main]
    puts the users whose plan has amount 0 in [setup_users] and all the
    others in [reset_users], each list in CSV order; no user is lost or
    added. *)
Theorem process_users_splits_users
    (users_data : list (address * Z)) (vesting_results : list VestingPlan)
    (pending_call : option (list Z)) (w : world) :
  (length users_data <= length vesting_results)%nat ->
  exists s,
    fst (process_users users_data vesting_results pending_call w)
    = Returned s
    /\ setup_users s
       = map (fun row => fst (fst row))
           (filter (fun row => plan_amount (snd row) =? 0)
              (combine users_data vesting_results))
    /\ reset_users s
       = map (fun row => fst (fst row))
           (filter (fun row => negb (plan_amount (snd row) =? 0))
              (combine users_data vesting_results))
    /\ Permutation (setup_users s ++ reset_users s) (map fst users_data).
Proof.
  intros H. process_users_state H s.
  split; [reflexivity |]. split; [reflexivity |].
  rewrite <- map_app.
  rewrite <- (map_fst_combine_le users_data vesting_results H) at 3.
  rewrite map_map. apply Permutation_map.
  apply (filter_split_permutation is_new).
Qed.

Lemma process_users_splits_users_witness :
  (length [(1, 10); (2, 20); (3, 30)]%Z
   <= length [(0, 0, 0, 0); (1000, 0, 1749995000, 1749997000); (0, 0, 0, 0)]%Z)%nat
  /\ exists s,
       fst (process_users [(1, 10); (2, 20); (3, 30)]
              [(0, 0, 0, 0); (1000, 0, 1749995000, 1749997000); (0, 0, 0, 0)]
              (Some [7; 8]) configured) = Returned s
       /\ setup_users s = [1; 3] /\ reset_users s = [2].
Proof.
  split; [cbn; lia |].
  destruct (process_users_splits_users [(1, 10); (2, 20); (3, 30)]
              [(0, 0, 0, 0); (1000, 0, 1749995000, 1749997000); (0, 0, 0, 0)]
              (Some [7; 8]) configured)
    as (s & Hs & Hsetup & Hreset & _); [cbn; lia |].
  exists s. split; [exact Hs |]. rewrite Hsetup, Hreset.
  split; reflexivity.
Defined.

(** The lists the processing fills stay aligned and the counters count
    them: one amount per user in both pairs of lists, [new_plans_count]
    and [existing_plans_count] are their lengths, and together they count
    every CSV row. *)
Theorem process_users_counts
    (users_data : list (address * Z)) (vesting_results : list VestingPlan)
    (pending_call : option (list Z)) (w : world) :
  (length users_data <= length vesting_results)%nat ->
  exists s,
    fst (process_users users_data vesting_results pending_call w)
    = Returned s
    /\ length (setup_amounts s) = length (setup_users s)
    /\ length (reset_amounts s) = length (reset_users s)
    /\ new_plans_count s = len (setup_users s)
    /\ existing_plans_count s = len (reset_users s)
    /\ new_plans_count s + existing_plans_count s = len users_data.
Proof.
  intros H. process_users_state H s.
  unfold len. rewrite !length_map.
  repeat split; try reflexivity.
  pose proof (filter_split_length is_new
                (combine users_data vesting_results)) as Hs.
  rewrite length_combine in Hs. lia.
Qed.

Lemma process_users_counts_witness :
  (length [(1, 10); (2, 20)]%Z <= length [(0, 0, 0, 0); (5, 0, 1, 2)]%Z)%nat
  /\ exists s,
       fst (process_users [(1, 10); (2, 20)] [(0, 0, 0, 0); (5, 0, 1, 2)]
              None configured) = Returned s
       /\ new_plans_count s + existing_plans_count s
          = len [(1, 10); (2, 20)].
Proof.
  split; [cbn; lia |].
  destruct (process_users_counts [(1, 10); (2, 20)]
              [(0, 0, 0, 0); (5, 0, 1, 2)] None configured)
    as (s & Hs & _ & _ & _ & _ & Hsum); [cbn; lia |].
  exists s. split; assumption.
Defined.

(** The totals of the summary are consistent: the total of new vested
    amounts is the sum of the CSV amounts and splits into the setup and
    the reset totals, and the setup amounts add up to the setup total
    plus the pending total. *)
Theorem process_users_totals
    (users_data : list (address * Z)) (vesting_results : list VestingPlan)
    (pending_call : option (list Z)) (w : world) :
  (length users_data <= length vesting_results)%nat ->
  exists s,
    fst (process_users users_data vesting_results pending_call w)
    = Returned s
    /\ total_new_vested_amount s = total (map snd users_data)
    /\ total_new_vested_amount s
       = total_setup_new_amount s + total_reset_new_amount s
    /\ total (setup_amounts s)
       = total_setup_new_amount s + total_pending_amount s.
Proof.
  intros H. process_users_state H s.
  rewrite !Z.add_0_l. split; [| split].
  - unfold row_amount. rewrite <- (map_map fst snd).
    now rewrite map_fst_combine_le.
  - symmetry. apply (total_filter_split is_new row_amount).
  - apply total_map_add.
Qed.

Lemma process_users_totals_witness :
  (length [(1, 10); (2, 20)]%Z <= length [(0, 0, 0, 0); (5, 0, 1, 2)]%Z)%nat
  /\ exists s,
       fst (process_users [(1, 10); (2, 20)] [(0, 0, 0, 0); (5, 0, 1, 2)]
              (Some [4]) configured) = Returned s
       /\ total_new_vested_amount s = 30
       /\ total (setup_amounts s)
          = total_setup_new_amount s + total_pending_amount s.
Proof.
  split; [cbn; lia |].
  destruct (process_users_totals [(1, 10); (2, 20)]
              [(0, 0, 0, 0); (5, 0, 1, 2)] (Some [4]) configured)
    as (s & Hs & Hv & _ & Hsum); [cbn; lia |].
  exists s. split; [exact Hs |]. split; [rewrite Hv; reflexivity | exact Hsum].
Defined.

Lemma Forall2_map_right {A B : Type} (R : A -> B -> Prop) (f : A -> B)
    (l : list A) :
  (forall x, In x l -> R x (f x)) -> Forall2 R l (map f l).
Proof.
  induction l as [| x l IH]; intros H; cbn; constructor.
  - apply H. now left.
  - apply IH. intros y Hy. apply H. now right.
Qed.

(** Every user with an existing plan is reset to the amount still locked
    at [EXECUTION_TIMESTAMP], as [calculate_future_locked_amount] gives
    it, plus the CSV amount. *)
Theorem process_users_reset_amounts
    (users_data : list (address * Z)) (vesting_results : list VestingPlan)
    (pending_call : option (list Z)) (w : world) :
  (length users_data <= length vesting_results)%nat ->
  exists s,
    fst (process_users users_data vesting_results pending_call w)
    = Returned s
    /\ Forall2
         (fun row total_amount =>
            exists future_locked,
              fst (calculate_future_locked_amount (snd row)
                     EXECUTION_TIMESTAMP configured) = Ok future_locked
              /\ total_amount = future_locked + snd (fst row))
         (filter (fun row => negb (plan_amount (snd row) =? 0))
            (combine users_data vesting_results))
         (reset_amounts s).
Proof.
  intros H. process_users_state H s.
  apply Forall2_map_right. intros row _.
  exists (locked_value (snd row) EXECUTION_TIMESTAMP).
  split; [apply calculate_future_locked_amount_value | reflexivity].
Qed.

Lemma process_users_reset_amounts_witness :
  (length [(2, 20)]%Z
   <= length [(1000, 0, 1749995000, 1749997000)]%Z)%nat
  /\ exists s,
       fst (process_users [(2, 20)] [(1000, 0, 1749995000, 1749997000)]
              None configured) = Returned s
       /\ reset_amounts s = [520].
Proof.
  split; [cbn; lia |].
  destruct (process_users_reset_amounts [(2, 20)]
              [(1000, 0, 1749995000, 1749997000)] None configured)
    as (s & Hs & Hr); [cbn; lia |].
  exists s. split; [exact Hs |].
  vm_compute in Hs. injection Hs as <-. reflexivity.
Defined.

(** With unsigned plan amounts, a reset amount is never below the CSV
    amount of its row and never above that amount plus the total of the
    existing plan. *)
Theorem process_users_reset_bounds
    (users_data : list (address * Z)) (vesting_results : list VestingPlan)
    (pending_call : option (list Z)) (w : world) :
  (length users_data <= length vesting_results)%nat ->
  Forall (fun plan => 0 <= plan_amount plan) vesting_results ->
  exists s,
    fst (process_users users_data vesting_results pending_call w)
    = Returned s
    /\ Forall2
         (fun row total_amount =>
            snd (fst row) <= total_amount
            <= snd (fst row) + plan_amount (snd row))
         (filter (fun row => negb (plan_amount (snd row) =? 0))
            (combine users_data vesting_results))
         (reset_amounts s).
Proof.
  intros H Hpos. process_users_state H s.
  apply Forall2_map_right. intros [[user csv] plan] Hin.
  apply filter_In in Hin. destruct Hin as [Hin _].
  apply in_combine_r in Hin.
  rewrite Forall_forall in Hpos. specialize (Hpos plan Hin).
  destruct plan as [[[amount claimed] st] en].
  pose proof (locked_value_bounds amount claimed st en EXECUTION_TIMESTAMP
                Hpos).
  unfold row_amount. cbn [fst snd plan_amount] in *. lia.
Qed.

Lemma process_users_reset_bounds_witness :
  (length [(2, 20)]%Z
   <= length [(1000, 0, 1749995000, 1749997000)]%Z)%nat
  /\ Forall (fun plan => 0 <= plan_amount plan)
       [(1000, 0, 1749995000, 1749997000)]
  /\ exists s,
       fst (process_users [(2, 20)] [(1000, 0, 1749995000, 1749997000)]
              None configured) = Returned s
       /\ Forall2
            (fun row total_amount =>
               snd (fst row) <= total_amount
               <= snd (fst row) + plan_amount (snd row))
            (filter (fun row => negb (plan_amount (snd row) =? 0))
               (combine [(2, 20)] [(1000, 0, 1749995000, 1749997000)]))
            (reset_amounts s).
Proof.
  assert (Forall (fun plan => 0 <= plan_amount plan)
            [(1000, 0, 1749995000, 1749997000)]) as Hpos
    by (repeat constructor; cbn; lia).
  split; [cbn; lia | split; [exact Hpos |]].
  apply (process_users_reset_bounds [(2, 20)]
           [(1000, 0, 1749995000, 1749997000)] None configured);
    [cbn; lia | exact Hpos].
Defined.


(** ** The pending amounts *)

Lemma zero_pending_get (no_vesting_users : list address) :
  forall (d : dict) (user : address),
  (forall k, dict_get d k 0 = 0 \/ In k no_vesting_users) ->
  dict_get (zero_pending no_vesting_users d) user 0 = 0.
Proof.
  unfold zero_pending.
  induction no_vesting_users as [| x l IH]; intros d user H.
  - destruct (H user) as [E | []]. exact E.
  - cbn [fold_left]. apply IH. intros k. unfold dict_set. cbn [dict_get].
    destruct (Z.eqb_spec x k) as [-> | Hne]; [now left |].
    destruct (H k) as [E | [E | E]]; [now left | contradiction | now right].
Qed.

Lemma store_pending_keys (no_vesting_users : list address) :
  forall (i : nat) (pending_results : list Z) (d : dict) (k : address),
  dict_get (fst (store_pending i no_vesting_users pending_results d)) k 0
  = dict_get d k 0
  \/ In k no_vesting_users.
Proof.
  induction no_vesting_users as [| x l IH]; intros i pr d k.
  - now left.
  - cbn [store_pending]. destruct (index pr i) as [v | e]; [| now left].
    destruct (IH (S i) pr (dict_set d x v) k) as [E | E]; [| right; now right].
    rewrite E. unfold dict_set. cbn [dict_get].
    destruct (Z.eqb_spec x k) as [-> | Hne]; [right; now left | now left].
Qed.

Lemma store_pending_short (no_vesting_users : list address) :
  forall (i : nat) (pending_results : list Z) (d : dict),
  (i <= length pending_results < i + length no_vesting_users)%nat ->
  snd (store_pending i no_vesting_users pending_results d)
  = Raised IndexError.
Proof.
  induction no_vesting_users as [| x l IH]; intros i pr d H.
  - cbn in H. lia.
  - cbn [store_pending].
    destruct (Nat.eq_dec i (length pr)) as [-> | Hne].
    + now rewrite index_out_of_range by lia.
    + destruct (index_in_range pr i) as (v & _ & ->); [lia |].
      apply IH. cbn in H. lia.
Qed.

Lemma store_pending_ok (no_vesting_users : list address) :
  forall (i : nat) (pending_results : list Z) (d : dict),
  (i + length no_vesting_users <= length pending_results)%nat ->
  store_pending i no_vesting_users pending_results d
  = (rev (combine no_vesting_users (skipn i pending_results)) ++ d,
     Returned tt).
Proof.
  induction no_vesting_users as [| x l IH]; intros i pr d H.
  - reflexivity.
  - cbn [store_pending].
    destruct (index_in_range pr i) as (v & Hv & ->); [cbn in H; lia |].
    rewrite IH by (cbn in H; lia).
    rewrite (skipn_nth_error _ _ _ Hv). cbn [combine rev].
    now rewrite <- app_assoc.
Qed.

Lemma dict_get_unique (d : dict) (k : address) (v default : Z) :
  NoDup (map fst d) -> In (k, v) d -> dict_get d k default = v.
Proof.
  induction d as [| [k' v'] d IH]; intros Hnd Hin; [contradiction |].
  cbn [dict_get]. cbn [map fst] in Hnd. inversion Hnd as [| ? ? Hnotin Hnd'].
  subst. destruct Hin as [[= -> ->] | Hin].
  - now rewrite Z.eqb_refl.
  - destruct (Z.eqb_spec k' k) as [-> | Hne]; [| now apply IH].
    exfalso. apply Hnotin. apply (in_map fst) in Hin. exact Hin.
Qed.

Lemma total_map_zero {A : Type} (g : A -> Z) (l : list A) :
  (forall x, g x = 0) -> total (map g l) = 0.
Proof.
  intros H. unfold total. induction l as [| x l IH]; cbn; [reflexivity |].
  rewrite H. exact IH.
Qed.

(** When the [pendingAmount] call raises, or answers with fewer results
    than there are users without a plan, every pending amount counts as
    0, those that were fetched included: the setup amounts are the CSV
    amounts. *)
Theorem process_users_pending_fallback
    (users_data : list (address * Z)) (vesting_results : list VestingPlan)
    (pending_call : option (list Z)) (w : world) :
  (length users_data <= length vesting_results)%nat ->
  (forall pending_results,
     pending_call = Some pending_results ->
     (length pending_results
      < length (filter (fun row => (plan_amount (snd row) =? 0)%Z)
                  (combine users_data vesting_results)))%nat) ->
  exists s,
    fst (process_users users_data vesting_results pending_call w)
    = Returned s
    /\ total_pending_amount s = 0
    /\ setup_amounts s
       = map (fun row => snd (fst row))
           (filter (fun row => plan_amount (snd row) =? 0)
              (combine users_data vesting_results)).
Proof.
  intros H Hcall.
  assert (forall user,
            dict_get
              (fetch_pending_amounts
                 (map row_user
                    (filter is_new (combine users_data vesting_results)))
                 pending_call) user 0 = 0) as Hzero.
  { intros user. unfold fetch_pending_amounts.
    destruct (map row_user _) as [| u nvu] eqn:Envu; [reflexivity |].
    destruct pending_call as [pr |].
    - specialize (Hcall pr eq_refl).
      change (filter (fun row => plan_amount (snd row) =? 0))
        with (filter is_new) in Hcall.
      rewrite <- (length_map row_user), Envu in Hcall.
      pose proof (store_pending_short (u :: nvu) 0 pr [] ltac:(lia)) as Hs.
      pose proof (store_pending_keys (u :: nvu) 0 pr []) as Hk.
      destruct (store_pending 0 (u :: nvu) pr []) as [d r].
      cbn [fst snd] in *. subst r.
      apply zero_pending_get. exact Hk.
    - apply zero_pending_get. intros k. now left. }
  process_users_state H s.
  split.
  - rewrite Z.add_0_l. apply total_map_zero. intros r. apply Hzero.
  - apply map_ext. intros r. rewrite Hzero. unfold row_amount. lia.
Qed.

Lemma process_users_pending_fallback_witness :
  (length [(1, 10); (3, 30)]%Z <= length [(0, 0, 0, 0); (0, 0, 0, 0)]%Z)%nat
  /\ exists s,
       fst (process_users [(1, 10); (3, 30)] [(0, 0, 0, 0); (0, 0, 0, 0)]
              (Some [7]) configured) = Returned s
       /\ total_pending_amount s = 0
       /\ setup_amounts s = [10; 30].
Proof.
  split; [cbn; lia |].
  destruct (process_users_pending_fallback [(1, 10); (3, 30)]
              [(0, 0, 0, 0); (0, 0, 0, 0)] (Some [7]) configured)
    as (s & Hs & Hp & Ha).
  - cbn; lia.
  - intros pr [= <-]. cbn. lia.
  - exists s. split; [exact Hs |]. split; [exact Hp |].
    rewrite Ha. reflexivity.
Defined.

Lemma map_pointwise_firstn {A : Type} (g : A -> Z) (rows : list A) :
  forall values : list Z,
  (forall j r v, nth_error rows j = Some r -> nth_error values j = Some v ->
                 g r = v) ->
  (length rows <= length values)%nat ->
  map g rows = firstn (length rows) values.
Proof.
  induction rows as [| r rows IH]; intros [| v values] Hp Hl; cbn in *;
    try reflexivity; try lia.
  f_equal.
  - apply (Hp 0%nat r v); reflexivity.
  - apply IH; [| lia]. intros j r' v' Hr Hv. apply (Hp (S j)); assumption.
Qed.

Lemma map_add_combine {A : Type} (f g : A -> Z) (rows : list A) :
  map (fun r => f r + g r) rows
  = map (fun rp => f (fst rp) + snd rp) (combine rows (map g rows)).
Proof.
  induction rows as [| r rows IH]; cbn; [reflexivity |]. now rewrite IH.
Qed.

Lemma combine_firstn_same {A B : Type} (l : list A) (l' : list B) :
  combine l (firstn (length l) l') = combine l l'.
Proof.
  revert l'. induction l as [| a l IH]; intros [| b l']; cbn;
    try reflexivity. now rewrite IH.
Qed.

(** When the [pendingAmount] call answers for every user without a plan
    and no such user occurs twice in the CSV, the setup amount of the
    [j]-th of them is its CSV amount plus the [j]-th result, and the
    pending total is the sum of those results. *)
Theorem process_users_adds_pending
    (users_data : list (address * Z)) (vesting_results : list VestingPlan)
    (pending_results : list Z) (w : world) :
  (length users_data <= length vesting_results)%nat ->
  (length (filter (fun row => (plan_amount (snd row) =? 0)%Z)
             (combine users_data vesting_results))
   <= length pending_results)%nat ->
  NoDup (map (fun row => fst (fst row))
           (filter (fun row => plan_amount (snd row) =? 0)
              (combine users_data vesting_results))) ->
  exists s,
    fst (process_users users_data vesting_results (Some pending_results) w)
    = Returned s
    /\ setup_amounts s
       = map (fun rp => snd (fst (fst rp)) + snd rp)
           (combine
              (filter (fun row => plan_amount (snd row) =? 0)
                 (combine users_data vesting_results))
              pending_results)
    /\ total_pending_amount s
       = total
           (firstn
              (length (filter (fun row => plan_amount (snd row) =? 0)
                         (combine users_data vesting_results)))
              pending_results).
Proof.
  intros H Hlen Hnd.
  change (filter (fun row => plan_amount (snd row) =? 0))
    with (filter is_new) in *.
  change (map (fun row => fst (fst row))) with (map row_user) in Hnd.
  remember (filter is_new (combine users_data vesting_results))
    as new_rows eqn:Enew.
  assert (map (fun r =>
                 dict_get
                   (fetch_pending_amounts (map row_user new_rows)
                      (Some pending_results)) (row_user r) 0) new_rows
          = firstn (length new_rows) pending_results) as Hget.
  { apply map_pointwise_firstn; [| exact Hlen].
    intros j r v Hr Hv. unfold fetch_pending_amounts.
    destruct (map row_user new_rows) as [| u nvu] eqn:Envu.
    { destruct new_rows; [destruct j; discriminate Hr | discriminate Envu]. }
    rewrite <- Envu in *. clear Envu u nvu.
    rewrite store_pending_ok by (rewrite length_map; cbn [Nat.add]; lia).
    cbn [skipn]. rewrite app_nil_r.
    apply dict_get_unique.
    - rewrite map_rev, map_fst_combine_le by (rewrite length_map; lia).
      apply NoDup_rev. exact Hnd.
    - apply in_rev. rewrite rev_involutive.
      apply (nth_error_In _ j). apply nth_error_combine; [| exact Hv].
      rewrite nth_error_map, Hr. reflexivity. }
  subst new_rows. process_users_state H s.
  rewrite Z.add_0_l. split.
  - rewrite (map_add_combine row_amount), Hget, combine_firstn_same.
    reflexivity.
  - rewrite Hget. reflexivity.
Qed.

Lemma process_users_adds_pending_witness :
  (length [(1, 10); (2, 20); (3, 30)]%Z
   <= length [(0, 0, 0, 0); (5, 0, 1, 2); (0, 0, 0, 0)]%Z)%nat
  /\ exists s,
       fst (process_users [(1, 10); (2, 20); (3, 30)]
              [(0, 0, 0, 0); (5, 0, 1, 2); (0, 0, 0, 0)] (Some [7; 8])
              configured) = Returned s
       /\ setup_amounts s = [17; 38]
       /\ total_pending_amount s = 15.
Proof.
  split; [cbn; lia |].
  destruct (process_users_adds_pending [(1, 10); (2, 20); (3, 30)]
              [(0, 0, 0, 0); (5, 0, 1, 2); (0, 0, 0, 0)] [7; 8] configured)
    as (s & Hs & Ha & Hp).
  - cbn; lia.
  - cbn; lia.
  - cbn. repeat constructor; cbn; intuition lia.
  - exists s. split; [exact Hs |]. rewrite Ha, Hp. split; reflexivity.
Defined.

(** ** The setup batches *)

Lemma combine_map_seq {A B : Type} (f : nat -> A) (g : nat -> B)
    (s : list nat) :
  combine (map f s) (map g s) = map (fun k => (f k, g k)) s.
Proof.
  induction s as [| k s IH]; cbn; [reflexivity |]. now rewrite IH.
Qed.

(** For user and amount lists of the same length, as the processing
    leaves them, the setup block pairs the [k]-th batch of users with the
    [k]-th batch of amounts: there are [num_batches] pairs, the two
    halves of a pair have the same length, between 1 and [BATCH_SIZE],
    and the pairs put end to end give back both lists. *)
Theorem setup_batches_aligned
    (users : list address) (amounts : list Z) :
  length users = length amounts ->
  exists batches,
    setup_batches users amounts = Ok batches
    /\ num_batches users = Ok (len batches)
    /\ concat (map fst batches) = users
    /\ concat (map snd batches) = amounts
    /\ Forall (fun b => length (fst b) = length (snd b)
                        /\ 1 <= len (fst b) <= BATCH_SIZE) batches.
Proof.
  intros Hlen. unfold setup_batches, num_batches, floordiv.
  assert (0 < BATCH_SIZE) as Hb by reflexivity.
  rewrite !batch_list_chunks by exact Hb. cbn [bind].
  assert (len amounts = len users) as -> by (unfold len; lia).
  destruct (chunk_count_bounds users BATCH_SIZE Hb) as (Hcz & Hle & Hlt).
  set (c := Z.to_nat ((len users + BATCH_SIZE - 1) / BATCH_SIZE)) in *.
  rewrite combine_map_seq. eexists. split; [reflexivity |].
  split; [| split; [| split]].
  - change (BATCH_SIZE =? 0) with false. cbn iota. f_equal.
    unfold len. rewrite length_map, length_seq. symmetry. exact Hcz.
  - rewrite map_map. cbn [fst]. rewrite concat_chunks.
    apply firstn_all2. exact Hle.
  - rewrite map_map. cbn [snd]. rewrite concat_chunks.
    apply firstn_all2. rewrite <- Hlen. exact Hle.
  - apply Forall_forall. intros b Hin.
    apply in_map_iff in Hin. destruct Hin as (k & <- & Hk).
    apply in_seq in Hk. specialize (Hlt k ltac:(lia)).
    cbn [fst snd]. unfold len. rewrite !length_chunk, <- Hlen.
    split; [reflexivity |].
    change BATCH_SIZE with 150 in *. lia.
Qed.

Lemma setup_batches_aligned_witness :
  length [1; 2; 3] = length [10; 20; 30]
  /\ setup_batches [1; 2; 3] [10; 20; 30] = Ok [([1; 2; 3], [10; 20; 30])].
Proof.
  split; [reflexivity |].
  destruct (setup_batches_aligned [1; 2; 3] [10; 20; 30] eq_refl)
    as (batches & H & _).
  rewrite H. vm_compute in H. injection H as <-. reflexivity.
Defined.

(** * [vesting_setup.py]: [categorize_users] and [prepare_update_data] *)

Lemma categorize_users_loop_ok (user_updates : list (address * Z)) :
  forall (i : nat) (vesting_info : list VestingPlan)
         (existing_users new_users : list (address * Z)),
  (i + length user_updates <= length vesting_info)%nat ->
  VestingSetup.categorize_users_loop i user_updates vesting_info
    existing_users new_users
  = Returned
      (existing_users
       ++ map fst (filter has_plan
                     (combine user_updates (skipn i vesting_info))),
       new_users
       ++ map fst (filter (fun r => negb (has_plan r))
                     (combine user_updates (skipn i vesting_info)))).
Proof.
  induction user_updates as [| [user amount] rest IH];
    intros i vi ex nw H.
  - cbn. now rewrite !app_nil_r.
  - cbn [VestingSetup.categorize_users_loop].
    destruct (index_in_range vi i) as (plan & Hp & ->); [cbn in H; lia |].
    rewrite (skipn_nth_error _ _ _ Hp). cbn [combine filter].
    change (has_plan (user, amount, plan)) with (plan_amount plan >? 0).
    destruct (plan_amount plan >? 0); cbn [negb map fst];
      rewrite IH by (cbn in H; lia); rewrite <- ?app_assoc; reflexivity.
Qed.

Lemma setup_prepare_update_data_loop_ok (user_updates : list (address * Z)) :
  forall (i : nat) (vesting_info : list VestingPlan)
         (existing_updates new_setups : list (address * Z)),
  (i + length user_updates <= length vesting_info)%nat ->
  VestingSetup.prepare_update_data_loop i user_updates vesting_info
    existing_updates new_setups
  = Returned
      (existing_updates
       ++ map updated_row
            (filter has_plan (combine user_updates (skipn i vesting_info))),
       new_setups
       ++ map fst (filter (fun r => negb (has_plan r))
                     (combine user_updates (skipn i vesting_info)))).
Proof.
  induction user_updates as [| [user amount] rest IH];
    intros i vi ex nw H.
  - cbn. now rewrite !app_nil_r.
  - cbn [VestingSetup.prepare_update_data_loop].
    destruct (index_in_range vi i) as (plan & Hp & ->); [cbn in H; lia |].
    rewrite (skipn_nth_error _ _ _ Hp). cbn [combine filter].
    change (has_plan (user, amount, plan)) with (plan_amount plan >? 0).
    destruct (plan_amount plan >? 0); cbn [negb map fst];
      rewrite IH by (cbn in H; lia); rewrite <- ?app_assoc; reflexivity.
Qed.

Lemma categorize_users_loop_short (user_updates : list (address * Z)) :
  forall (i : nat) (vesting_info : list VestingPlan)
         (existing_users new_users : list (address * Z)),
  (i <= length vesting_info < i + length user_updates)%nat ->
  VestingSetup.categorize_users_loop i user_updates vesting_info
    existing_users new_users = Raised IndexError.
Proof.
  induction user_updates as [| [user amount] rest IH];
    intros i vi ex nw H.
  - cbn in H. lia.
  - cbn [VestingSetup.categorize_users_loop].
    destruct (Nat.eq_dec i (length vi)) as [-> | Hne].
    + now rewrite index_out_of_range by lia.
    + destruct (index_in_range vi i) as (plan & _ & ->); [lia |].
      destruct (plan_amount plan >? 0); apply IH; cbn in H; lia.
Qed.

Lemma setup_prepare_update_data_loop_short
    (user_updates : list (address * Z)) :
  forall (i : nat) (vesting_info : list VestingPlan)
         (existing_updates new_setups : list (address * Z)),
  (i <= length vesting_info < i + length user_updates)%nat ->
  VestingSetup.prepare_update_data_loop i user_updates vesting_info
    existing_updates new_setups = Raised IndexError.
Proof.
  induction user_updates as [| [user amount] rest IH];
    intros i vi ex nw H.
  - cbn in H. lia.
  - cbn [VestingSetup.prepare_update_data_loop].
    destruct (Nat.eq_dec i (length vi)) as [-> | Hne].
    + now rewrite index_out_of_range by lia.
    + destruct (index_in_range vi i) as (plan & _ & ->); [lia |].
      destruct (plan_amount plan >? 0); apply IH; cbn in H; lia.
Qed.

(** With a plan for every row, [categorize_users] returns the rows whose
    plan has a positive total and the other rows, each list in the order
    of the input; every row is in exactly one of them. *)
Theorem categorize_users_partition
    (user_updates : list (address * Z)) (vesting_info : list VestingPlan) :
  (length user_updates <= length vesting_info)%nat ->
  exists existing_users new_users,
    VestingSetup.categorize_users user_updates vesting_info
    = Returned (existing_users, new_users)
    /\ existing_users
       = map fst (filter (fun row => plan_amount (snd row) >? 0)
                    (combine user_updates vesting_info))
    /\ new_users
       = map fst (filter (fun row => negb (plan_amount (snd row) >? 0))
                    (combine user_updates vesting_info))
    /\ Permutation (existing_users ++ new_users) user_updates.
Proof.
  intros H. unfold VestingSetup.categorize_users.
  rewrite categorize_users_loop_ok by (cbn; lia). cbn [app skipn].
  eexists _, _. split; [reflexivity |]. split; [reflexivity |].
  split; [reflexivity |].
  rewrite <- map_app.
  rewrite <- (map_fst_combine_le user_updates vesting_info H) at 3.
  apply Permutation_map. apply (filter_split_permutation has_plan).
Qed.

Lemma categorize_users_partition_witness :
  (length [(1, 10); (2, 20)]%Z <= length [(0, 0, 0, 0); (5, 1, 1, 2)]%Z)%nat
  /\ VestingSetup.categorize_users [(1, 10); (2, 20)]
       [(0, 0, 0, 0); (5, 1, 1, 2)] = Returned ([(2, 20)], [(1, 10)]).
Proof.
  split; [cbn; lia |].
  destruct (categorize_users_partition [(1, 10); (2, 20)]
              [(0, 0, 0, 0); (5, 1, 1, 2)])
    as (ex & nw & H & -> & -> & _); [cbn; lia |].
  exact H.
Defined.

(** [prepare_update_data] splits the rows as [categorize_users] does: the
    new setups are the new users with their amounts unchanged, and the
    existing updates are for the existing users, in the same order, each
    with [totalAmount - claimedAmount] of its plan added to its amount. *)
Theorem setup_prepare_update_data_matches_categorize
    (user_updates : list (address * Z)) (vesting_info : list VestingPlan) :
  (length user_updates <= length vesting_info)%nat ->
  exists existing_users new_users existing_updates,
    VestingSetup.categorize_users user_updates vesting_info
    = Returned (existing_users, new_users)
    /\ VestingSetup.prepare_update_data user_updates vesting_info
       = Returned (existing_updates, new_users)
    /\ map fst existing_updates = map fst existing_users
    /\ Forall2
         (fun row update =>
            snd update
            = plan_amount (snd row) - plan_claimed (snd row) + snd (fst row))
         (filter (fun row => plan_amount (snd row) >? 0)
            (combine user_updates vesting_info))
         existing_updates.
Proof.
  intros H.
  unfold VestingSetup.categorize_users, VestingSetup.prepare_update_data.
  rewrite categorize_users_loop_ok, setup_prepare_update_data_loop_ok
    by (cbn; lia).
  cbn [app skipn]. eexists _, _, _.
  split; [reflexivity |]. split; [reflexivity |]. split.
  - rewrite !map_map. reflexivity.
  - apply Forall2_map_right. intros row _. reflexivity.
Qed.

Lemma setup_prepare_update_data_matches_categorize_witness :
  (length [(1, 10); (2, 20)]%Z <= length [(0, 0, 0, 0); (5, 1, 1, 2)]%Z)%nat
  /\ VestingSetup.prepare_update_data [(1, 10); (2, 20)]
       [(0, 0, 0, 0); (5, 1, 1, 2)] = Returned ([(2, 24)], [(1, 10)]).
Proof.
  split; [cbn; lia |].
  destruct (setup_prepare_update_data_matches_categorize [(1, 10); (2, 20)]
              [(0, 0, 0, 0); (5, 1, 1, 2)])
    as (ex & nw & up & _ & H & _); [cbn; lia |].
  rewrite H. vm_compute in H. injection H as <- <-. reflexivity.
Defined.

(** When no plan has claimed more than its total, an existing plan is
    never updated to less than the amount to add. *)
Theorem setup_prepare_update_data_never_lowers
    (user_updates : list (address * Z)) (vesting_info : list VestingPlan) :
  (length user_updates <= length vesting_info)%nat ->
  Forall (fun plan => plan_claimed plan <= plan_amount plan) vesting_info ->
  exists existing_updates new_setups,
    VestingSetup.prepare_update_data user_updates vesting_info
    = Returned (existing_updates, new_setups)
    /\ Forall2
         (fun row update =>
            fst update = fst (fst row) /\ snd (fst row) <= snd update)
         (filter (fun row => plan_amount (snd row) >? 0)
            (combine user_updates vesting_info))
         existing_updates.
Proof.
  intros H Hinv. unfold VestingSetup.prepare_update_data.
  rewrite setup_prepare_update_data_loop_ok by (cbn; lia).
  cbn [app skipn]. eexists _, _. split; [reflexivity |].
  apply Forall2_map_right. intros [[user add] plan] Hin.
  apply filter_In in Hin. destruct Hin as [Hin _].
  apply in_combine_r in Hin.
  rewrite Forall_forall in Hinv. specialize (Hinv plan Hin).
  unfold updated_row, row_user, row_amount. cbn [fst snd]. lia.
Qed.

Lemma setup_prepare_update_data_never_lowers_witness :
  (length [(2, 20)]%Z <= length [(5, 1, 1, 2)]%Z)%nat
  /\ Forall (fun plan => plan_claimed plan <= plan_amount plan)
       [(5, 1, 1, 2)]
  /\ exists existing_updates new_setups,
       VestingSetup.prepare_update_data [(2, 20)] [(5, 1, 1, 2)]
       = Returned (existing_updates, new_setups)
       /\ Forall2
            (fun row update =>
               fst update = fst (fst row) /\ snd (fst row) <= snd update)
            (filter (fun row => plan_amount (snd row) >? 0)
               (combine [(2, 20)] [(5, 1, 1, 2)]))
            existing_updates.
Proof.
  assert (Forall (fun plan => plan_claimed plan <= plan_amount plan)
            [(5, 1, 1, 2)]) as Hinv
    by (repeat constructor; cbn; lia).
  split; [cbn; lia | split; [exact Hinv |]].
  apply (setup_prepare_update_data_never_lowers [(2, 20)] [(5, 1, 1, 2)]);
    [cbn; lia | exact Hinv].
Defined.

(** Both functions fail, with [IndexError], exactly when there are fewer
    plans than rows. *)
Theorem setup_index_error
    (user_updates : list (address * Z)) (vesting_info : list VestingPlan) :
  (VestingSetup.categorize_users user_updates vesting_info
   = Raised IndexError
   <-> (length vesting_info < length user_updates)%nat)
  /\ (VestingSetup.prepare_update_data user_updates vesting_info
      = Raised IndexError
      <-> (length vesting_info < length user_updates)%nat).
Proof.
  unfold VestingSetup.categorize_users, VestingSetup.prepare_update_data.
  destruct (Nat.le_gt_cases (length user_updates) (length vesting_info))
    as [Hle | Hlt].
  - rewrite categorize_users_loop_ok, setup_prepare_update_data_loop_ok
      by (cbn; lia).
    split; split; intros H; try discriminate H; lia.
  - rewrite categorize_users_loop_short,
      setup_prepare_update_data_loop_short by (cbn; lia).
    split; split; intros H; try reflexivity; exact Hlt.
Qed.
